(** * mytv: the HTTP forwarding core of [server.mjs]

    A shallow embedding of the proxy route [/proxy/:encodedUrl], of its URL
    validator [isValidUrl], of its retrying fetcher [makeRequest], of the
    header filter, and of the two aggregation routes [/api/search] and
    [/api/detail].

    Strings are byte strings (UTF-8), header maps and the site registry are
    finite maps keyed by strings, and the effects of a route handler (the
    outbound requests it issues, the retry counter, the response object it
    writes to) are threaded through an explicit handler state. *)

From Stdlib Require Import ZArith String Ascii List Bool Lia.
From stdpp Require Import base option gmap strings.

Import ListNotations.
Local Open Scope string_scope.
Local Open Scope Z_scope.

(** ** JavaScript string primitives used by the server *)

Module JsString.

(** [s.startsWith(p)] *)
Fixpoint startsWith (s p : string) {struct p} : bool :=
  match p with
  | EmptyString => true
  | String c p' =>
      match s with
      | EmptyString => false
      | String d s' => if Ascii.eqb c d then startsWith s' p' else false
      end
  end.

(** [s.includes(p)]: [p] occurs somewhere in [s]. *)
Fixpoint includes (s p : string) : bool :=
  if startsWith s p then true
  else match s with
       | EmptyString => false
       | String _ s' => includes s' p
       end.

(** [s.split(sep)] for a one-character separator: the pieces between
    the separators, in order; the empty string gives one empty piece. *)
Fixpoint split_go (sep : ascii) (s acc : string) : list string :=
  match s with
  | EmptyString => [acc]
  | String c s' =>
      if Ascii.eqb c sep then acc :: split_go sep s' EmptyString
      else split_go sep s' (acc ++ String c EmptyString)
  end.

Definition split (sep : ascii) (s : string) : list string :=
  split_go sep s EmptyString.

(** [arr.includes(x)] on an array of strings. *)
Definition array_includes (arr : list string) (x : string) : bool :=
  existsb (String.eqb x) arr.

(** Truthiness of a string: every string but the empty one. *)
Definition truthy (s : string) : bool :=
  match s with EmptyString => false | _ => true end.

(** Lower-casing of the ASCII letters, as HTTP header names are compared. *)
Definition lower_ascii (c : ascii) : ascii :=
  let n := N_of_ascii c in
  if ((65 <=? n) && (n <=? 90))%N then ascii_of_N (n + 32) else c.

Fixpoint toLowerCase (s : string) : string :=
  match s with
  | EmptyString => EmptyString
  | String c s' => String (lower_ascii c) (toLowerCase s')
  end.

End JsString.

(** ** The process environment *)

(** [process.env]: a finite map from variable names to their values. *)
Abbreviation Env := (gmap string string).

(** [process.env.NAME || dflt]: an unset or empty variable gives [dflt]. *)
Definition env_or (env : Env) (name dflt : string) : string :=
  match env !! name with
  | Some v => if JsString.truthy v then v else dflt
  | None => dflt
  end.

(** ** URL validation *)

(** The two fields of a WHATWG [URL] object that the validator reads.
    [protocol] is the scheme followed by a colon. *)
Record ParsedURL := mkURL { protocol : string; hostname : string }.

Section Validator.

(** [new URL(s)], the platform's parser of absolute URLs: [None] stands
    for the [TypeError] it throws on a string that is not one. *)
Variable URL : string -> option ParsedURL.

Variable env : Env.

Definition allowedProtocols : list string := ["http:"; "https:"].

Definition blockedHostnames : list string :=
  JsString.split "," (env_or env "BLOCKED_HOSTS" "localhost,127.0.0.1,0.0.0.0,::1").

Definition blockedPrefixes : list string :=
  JsString.split "," (env_or env "BLOCKED_IP_PREFIXES" "192.168.,10.,172.").

(** The [for (const prefix of blockedPrefixes)] loop: [true] when the
    loop returns [false] from the validator. *)
Fixpoint prefixBlocked (host : string) (prefixes : list string) : bool :=
  match prefixes with
  | [] => false
  | prefix :: rest =>
      if JsString.startsWith host prefix then true
      else prefixBlocked host rest
  end.

Definition isValidUrl (urlString : string) : bool :=
  match URL urlString with
  | None => false
  | Some parsed =>
      if negb (JsString.array_includes allowedProtocols (protocol parsed)) then false
      else if JsString.array_includes blockedHostnames (hostname parsed) then false
      else if prefixBlocked (hostname parsed) blockedPrefixes then false
      else true
  end.

(** A hostname is denied when it is an entry of the denied-hostname list
    or starts with an entry of the denied-prefix list. *)
Definition hostDenied (host : string) : Prop :=
  In host blockedHostnames
  \/ exists p rest, In p blockedPrefixes /\ host = p ++ rest.

End Validator.

(** ** [encodeURIComponent] *)

(** Characters that [encodeURIComponent] leaves alone: the ASCII letters
    and digits and [- _ . ! ~ * ' ( )]. *)
Definition uriUnreserved (c : ascii) : bool :=
  let n := N_of_ascii c in
  (((65 <=? n) && (n <=? 90)) || ((97 <=? n) && (n <=? 122))
   || ((48 <=? n) && (n <=? 57))
   || JsString.includes "-_.!~*'()" (String c EmptyString))%N.

Definition hexDigit (n : N) : ascii :=
  match String.get (N.to_nat n) "0123456789ABCDEF" with
  | Some c => c
  | None => "0"%char
  end.

(** Every other byte of the UTF-8 form of the string becomes [%XX]. *)
Fixpoint encodeURIComponent (s : string) : string :=
  match s with
  | EmptyString => EmptyString
  | String c s' =>
      if uriUnreserved c then String c (encodeURIComponent s')
      else
        let n := N_of_ascii c in
        String "%" (String (hexDigit (n / 16)) (String (hexDigit (n mod 16))
          (encodeURIComponent s')))
  end.

(** ** JavaScript values, responses and errors *)

#[local] Set Warnings "-register-all".

Inductive JsValue : Type :=
| JUndefined
| JNull
| JBool (b : bool)
| JNum (n : Z)
| JStr (s : string)
| JArray (items : list JsValue)
| JObject (fields : list (string * JsValue)).

(** What [if (v)] and [v || w] test. Numbers are kept as integers: the
    server only ever tests them for zero. *)
Definition truthy (v : JsValue) : bool :=
  match v with
  | JUndefined | JNull => false
  | JBool b => b
  | JNum n => negb (n =? 0)
  | JStr s => JsString.truthy s
  | JArray _ | JObject _ => true
  end.

(** [v.name] on a value that is neither [null] nor [undefined]: an own
    field of a parsed object, [undefined] elsewhere. *)
Fixpoint assoc (name : string) (fields : list (string * JsValue)) : JsValue :=
  match fields with
  | [] => JUndefined
  | (k, v) :: rest => if String.eqb k name then v else assoc name rest
  end.

Definition getField (name : string) (v : JsValue) : JsValue :=
  match v with
  | JObject fields => assoc name fields
  | _ => JUndefined
  end.

(** The [data] of an axios response: a readable stream (here the bytes it
    will deliver) under [responseType: 'stream'], a parsed value under
    [responseType: 'json']. *)
Inductive Data : Type :=
| Stream (bytes : string)
| Value (v : JsValue).

Definition dataTruthy (d : Data) : bool :=
  match d with
  | Stream _ => true
  | Value v => truthy v
  end.

(** Truthiness of [d.pipe] for a truthy [d]: streams have the method. *)
Definition hasPipe (d : Data) : bool :=
  match d with
  | Stream _ => true
  | Value v => truthy (getField "pipe" v)
  end.

(** A body with nothing in it: absent, [null] or the empty string. *)
Definition emptyBody (d : Data) : Prop :=
  d = Value JUndefined \/ d = Value JNull \/ d = Value (JStr "").

Inductive ResponseType := RJson | RStream.

Record AxiosRequest := mkRequest {
  url : string;
  responseType : ResponseType;
  timeout : Z;
  requestHeaders : list (string * string)
}.

Record AxiosResponse := mkResponse {
  status : Z;
  headers : gmap string string;
  data : Data
}.

(** A thrown error: its [message] and, for an axios error raised by a
    response that was received, that [response]. *)
Record JsError := mkError {
  message : string;
  response : option AxiosResponse
}.

Inductive AxiosResult :=
| Resolved (r : AxiosResponse)
| Rejected (e : JsError).

(** Errors raised by the platform rather than by axios. *)
Inductive EngineError := URIMalformed | NotAFunction | NoSuchProperty.

(** ** The response object and the handler state *)

Inductive Payload :=
| Sent (body : Data)        (* res.send(body) *)
| SentJson (doc : Data)     (* res.json(doc) *)
| Piped (bytes : string).   (* stream.pipe(res) *)

(** The Express response as the handlers drive it: the status code (200
    until [res.status] is called), the header map handed to [res.set],
    and the payload once one has been written. *)
Record Res := mkRes {
  statusCode : Z;
  setHeaders : gmap string string;
  payload : option Payload
}.

Definition freshRes : Res :=
  {| statusCode := 200; setHeaders := ∅; payload := None |}.

(** State of one running handler: the outbound requests issued so far
    (oldest first), the [retries] counter, and the response object. *)
Record St := mkSt {
  calls : list AxiosRequest;
  retries : Z;
  res : Res
}.

Definition initSt : St := {| calls := []; retries := 0; res := freshRes |}.

(** The fields of [config] that the routes read. [maxRetries] is the result
    of [parseInt]; the one test made of it is [retries < maxRetries], which
    a [NaN] fails like a negative number does. *)
Record Config := mkConfig {
  port : string;
  cfgTimeout : Z;
  maxRetries : Z;
  userAgent : string
}.

(** ** Handlers as state transformers that may throw *)

Inductive Outcome (A : Type) : Type :=
| Return (a : A)
| Throw (e : JsError).

Arguments Return {A} a.
Arguments Throw {A} e.

(** A computation of a handler. [None] means that the recursion budget of
    the model ran out; the handlers below never produce it
    (see [makeRequest_returns] and [proxy_returns]). *)
Definition M (A : Type) : Type := St -> option (Outcome A * St).

Definition ret {A} (a : A) : M A := fun st => Some (Return a, st).

Definition throw {A} (e : JsError) : M A := fun st => Some (Throw e, st).

Definition bind {A B} (m : M A) (k : A -> M B) : M B :=
  fun st =>
    match m st with
    | None => None
    | Some (Return a, st') => k a st'
    | Some (Throw e, st') => Some (Throw e, st')
    end.

(** [try { m } catch (error) { h error }] *)
Definition tryCatch {A} (m : M A) (h : JsError -> M A) : M A :=
  fun st =>
    match m st with
    | None => None
    | Some (Return a, st') => Some (Return a, st')
    | Some (Throw e, st') => h e st'
    end.

Declare Scope handler_scope.
Delimit Scope handler_scope with handler.
Notation "x <- m ;; k" := (bind m (fun x => k))
  (at level 100, m at next level, right associativity) : handler_scope.
Notation "m ;; k" := (bind m (fun _ => k))
  (at level 100, right associativity) : handler_scope.
Local Open Scope handler_scope.

Definition getRetries : M Z := fun st => Some (Return (retries st), st).

Definition setRetries (n : Z) : M unit :=
  fun st => Some (Return tt, {| calls := calls st; retries := n; res := res st |}).

Definition updRes (f : Res -> Res) : M unit :=
  fun st => Some (Return tt, {| calls := calls st; retries := retries st; res := f (res st) |}).

(** [res.status(code)] *)
Definition res_status (code : Z) : M unit :=
  updRes (fun r => {| statusCode := code; setHeaders := setHeaders r; payload := payload r |}).

(** [res.set(h)]: every field of [h] is set on the response. *)
Definition res_set (h : gmap string string) : M unit :=
  updRes (fun r => {| statusCode := statusCode r; setHeaders := h ∪ setHeaders r; payload := payload r |}).

Definition write (p : Payload) : M unit :=
  updRes (fun r => {| statusCode := statusCode r; setHeaders := setHeaders r; payload := Some p |}).

(** [res.send(body)] and [res.json(doc)] *)
Definition res_send (body : Data) : M unit := write (Sent body).
Definition res_json (doc : Data) : M unit := write (SentJson doc).

(** [a || b] on numbers and on response data *)
Definition num_or (a b : Z) : Z := if a =? 0 then b else a.
Definition data_or (a b : Data) : Data := if dataTruthy a then a else b.

(** ** The site registry and the query of an aggregation request *)

(** An entry of [API_SITES]: the base URL of the site's API. *)
Record Site := mkSite { api : string }.

(** [API_CONFIG]: per operation, the path template and the request headers. *)
Record ApiConfig := mkApiConfig {
  searchPath : string;
  searchHeaders : list (string * string);
  detailPath : string;
  detailHeaders : list (string * string)
}.

(** [req.query] of [/api/search] and [/api/detail]; [None] is an absent
    parameter. *)
Record Query := mkQuery {
  wd : option string;
  id : option string;
  source : option string;
  customApi : option string
}.

(** ** String replacement and the page files *)

Module JsReplace.

(** The rest of [s] after the prefix [p], when [s] starts with [p]. *)
Fixpoint stripPrefix (p s : string) {struct p} : option string :=
  match p with
  | EmptyString => Some s
  | String c p' =>
      match s with
      | EmptyString => None
      | String d s' => if Ascii.eqb c d then stripPrefix p' s' else None
      end
  end.

(** The text before and the text after the first occurrence of [p] in [s]. *)
Fixpoint splitAtFirst (s p : string) : option (string * string) :=
  match stripPrefix p s with
  | Some after => Some (EmptyString, after)
  | None =>
      match s with
      | EmptyString => None
      | String c s' =>
          match splitAtFirst s' p with
          | Some (before, after) => Some (String c before, after)
          | None => None
          end
      end
  end.

(** The replacement text of [replace] for a string pattern (no capture
    groups): [$$] is a dollar sign, [$&] the matched text, [$`] the text
    before the match and [$'] the text after it; any other text stands
    for itself. *)
Fixpoint getSubstitution (matched before after replacement : string) : string :=
  match replacement with
  | EmptyString => EmptyString
  | String "$" (String "$" r) => String "$" (getSubstitution matched before after r)
  | String "$" (String "&" r) => matched ++ getSubstitution matched before after r
  | String "$" (String "`" r) => before ++ getSubstitution matched before after r
  | String "$" (String "'" r) => after ++ getSubstitution matched before after r
  | String c r => String c (getSubstitution matched before after r)
  end.

(** [s.replace(p, replacement)] for a string [p]: the first occurrence only. *)
Definition replace (s p replacement : string) : string :=
  match splitAtFirst s p with
  | Some (before, after) => before ++ getSubstitution p before after replacement ++ after
  | None => s
  end.

(** [s.replace(/^\//, '')] *)
Definition dropLeadingSlash (s : string) : string :=
  match s with
  | String "/" r => r
  | _ => s
  end.

(** The regular expression [(https?:)\/([^/])] tried at the start of [s]:
    the first group, and the text from the second group on. *)
Definition schemeSlashAt (s : string) : option (string * string) :=
  match stripPrefix "https:/" s with
  | Some (String c r) => if Ascii.eqb c "/" then None else Some ("https:", String c r)
  | Some EmptyString => None
  | None =>
      match stripPrefix "http:/" s with
      | Some (String c r) => if Ascii.eqb c "/" then None else Some ("http:", String c r)
      | _ => None
      end
  end.

(** [s.replace(/(https?:)\/([^/])/, '$1//$2')]: the leftmost match gets
    its single slash doubled. *)
Fixpoint repairScheme (s : string) : string :=
  match schemeSlashAt s with
  | Some (scheme, rest) => scheme ++ "//" ++ rest
  | None =>
      match s with
      | EmptyString => EmptyString
      | String c s' => String c (repairScheme s')
      end
  end.

End JsReplace.

(** The [app.use('/proxy', ...)] middleware: the new [req.url] computed
    from the one it is given (the request URL after the mount path). *)
Definition proxyRewrite (url : string) : string :=
  let targetUrl := JsReplace.repairScheme (JsReplace.dropLeadingSlash url) in
  "/" ++ encodeURIComponent targetUrl.

(** [fs.readFileSync(path, 'utf8')]: the text of the file, or the error
    thrown. *)
Inductive FileRead :=
| FileText (content : string)
| FileError (e : JsError).

(** A text made of characters that [encodeURIComponent] leaves alone. *)
Fixpoint allUnreserved (s : string) : bool :=
  match s with
  | EmptyString => true
  | String c s' => uriUnreserved c && allUnreserved s'
  end.

(** The character [c] occurs in [s]. *)
Fixpoint occurs (c : ascii) (s : string) : bool :=
  match s with
  | EmptyString => false
  | String d s' => Ascii.eqb c d || occurs c s'
  end.

(** A text without dollar signs, as a hexadecimal digest is. *)
Definition dollarFree (s : string) : Prop := occurs "$" s = false.

(** ** A concrete platform

    Small stand-ins for the platform, on which the handlers can be run:
    a parser for URLs of the shape [scheme://host/path], a decoder of
    [%XX] escapes, and networks that answer from a fixed script. *)

Module Sample.

Definition URL (s : string) : option ParsedURL :=
  match String.index 0 "://" s with
  | Some (S n) =>
      let rest := String.substring (n + 4) (String.length s) s in
      let host := match String.index 0 "/" rest with
                  | Some k => String.substring 0 k rest
                  | None => rest
                  end in
      Some {| protocol := String.substring 0 (S n) s ++ ":"; hostname := host |}
  | _ => None
  end.

Definition hexValue (c : ascii) : option N :=
  let n := N_of_ascii c in
  if ((48 <=? n) && (n <=? 57))%N then Some (n - 48)%N
  else if ((65 <=? n) && (n <=? 70))%N then Some (n - 55)%N
  else if ((97 <=? n) && (n <=? 102))%N then Some (n - 87)%N
  else None.

Fixpoint decodeURIComponent (s : string) : option string :=
  match s with
  | EmptyString => Some EmptyString
  | String "%" (String a (String b rest)) =>
      match hexValue a, hexValue b, decodeURIComponent rest with
      | Some h, Some l, Some t => Some (String (ascii_of_N (16 * h + l)) t)
      | _, _, _ => None
      end
  | String "%" _ => None
  | String c rest =>
      match decodeURIComponent rest with
      | Some t => Some (String c t)
      | None => None
      end
  end.

Definition engineMessage (k : EngineError) : string :=
  match k with
  | URIMalformed => "URI malformed"
  | NotAFunction => "pipe is not a function"
  | NoSuchProperty => "Cannot read properties of undefined"
  end.

(** A network that answers the [n]-th request with the [n]-th entry of a
    script, and with [dflt] once the script is used up. *)
Definition scripted (script : list AxiosResult) (dflt : AxiosResult)
  : nat -> AxiosRequest -> AxiosResult :=
  fun n _ => nth n script dflt.

(** How axios settles a response that was received: it resolves on a
    status from 200 to 299 and rejects, with the response attached, on
    any other. *)
Definition settle (r : AxiosResponse) : AxiosResult :=
  if (200 <=? status r) && (status r <? 300) then Resolved r
  else Rejected {| message := "Request failed"; response := Some r |}.

(** A request that got no response at all. *)
Definition unreachable (msg : string) : AxiosResult :=
  Rejected {| message := msg; response := None |}.

Definition config : Config :=
  {| port := "8080"; cfgTimeout := 5000; maxRetries := 2; userAgent := "Mozilla/5.0" |}.

Definition API_SITES : gmap string Site :=
  {[ "heimuer" := {| api := "https://json.heimuer.xyz" |} ]}.

Definition API_CONFIG : ApiConfig :=
  {| searchPath := "/api.php/provide/vod/?ac=videolist&wd=";
     searchHeaders := [("Accept", "application/json")];
     detailPath := "/api.php/provide/vod/?ac=videolist&ids=";
     detailHeaders := [("Accept", "application/json")] |}.

(** Scenarios: a partial-content video, a JSON listing, an error page
    whose JSON body is the number 0, and the networks that serve them. *)

Definition video : AxiosResponse :=
  {| status := 206;
     headers := {[ "set-cookie" := "sid=1"; "content-type" := "video/mp4" ]};
     data := Stream "frames" |}.

Definition listing : AxiosResponse :=
  {| status := 200;
     headers := {[ "content-type" := "application/json" ]};
     data := Value (JObject [("code", JNum 1)]) |}.

Definition missing : AxiosResponse :=
  {| status := 404; headers := ∅; data := Value (JNum 0) |}.

Definition down := scripted [] (unreachable "connect ECONNREFUSED").

Definition streaming := scripted [settle video] (unreachable "connect ECONNREFUSED").

Definition flaky :=
  scripted [unreachable "timeout of 5000ms exceeded";
            unreachable "timeout of 5000ms exceeded";
            settle listing]
           (unreachable "connect ECONNREFUSED").

Definition serving (r : AxiosResponse) := scripted [] (settle r).

Definition videoUrl : string := "http://example.com/video.mp4".
Definition listingUrl : string := "http://example.com/api.php/provide/vod/?ac=list".
Definition loopbackUrl : string := "http://127.0.0.1/x".

(** [process.env] with the filter list spelled in mixed case. *)
Definition mixedCaseEnv : Env := {[ "FILTERED_HEADERS" := "Set-Cookie" ]}.

Definition bareQuery : Query :=
  {| wd := None; id := None; source := None; customApi := None |}.

(** [/api/search?wd=test&source=constructor] *)
Definition constructorQuery : Query :=
  {| wd := Some "test"; id := None; source := Some "constructor"; customApi := None |}.

(** [/api/detail?id=1%26ac%3Dlist] and [/api/search?wd=1%26ac%3Dlist] *)
Definition injectingQuery : Query :=
  {| wd := Some "1&ac=list"; id := Some "1&ac=list"; source := None; customApi := None |}.


(** The page files, and a stand-in for the SHA-256 digest that also gives
    hexadecimal digits: the hex dump of the text. *)

Definition lowerHexDigit (n : N) : ascii :=
  match String.get (N.to_nat n) "0123456789abcdef" with
  | Some c => c
  | None => "0"%char
  end.

Fixpoint sha256Hex (s : string) : string :=
  match s with
  | EmptyString => EmptyString
  | String c s' =>
      let n := N_of_ascii c in
      String (lowerHexDigit (n / 16)) (String (lowerHexDigit (n mod 16)) (sha256Hex s'))
  end.

Definition readFileSync (name : string) : FileRead :=
  if String.eqb name "index.html" then
    FileText "<script>window.__ENV__={P:'{{PASSWORD}}',A:'{{ADMINPASSWORD}}'}</script>{{PASSWORD}}"
  else FileError {| message := "ENOENT: no such file or directory"; response := None |}.

(** A network whose error body is a JSON object with a [pipe] field. *)
Definition clashing : AxiosResponse :=
  {| status := 502; headers := ∅; data := Value (JObject [("pipe", JNum 1)]) |}.

(** [process.env] with a trailing comma in the prefix list. *)
Definition trailingCommaEnv : Env := {[ "BLOCKED_IP_PREFIXES" := "10.," ]}.

(** A fully unreachable registry: no site at all. *)
Definition noSites : gmap string Site := ∅.

End Sample.

Section Server.

(** The platform and the libraries the server runs on. *)

(** [new URL(s)], as in [isValidUrl]. *)
Variable URL : string -> option ParsedURL.

(** [decodeURIComponent(s)]: [None] stands for the [URIError] it throws
    on a malformed escape sequence. *)
Variable decodeURIComponent : string -> option string.

(** The [message] of the errors that the platform itself throws. *)
Variable engineMessage : EngineError -> string.

(** The network as axios shows it to one handler: the result of its
    [n]-th outbound request (counting from 0), a response that axios
    resolves with or an error that it rejects with. *)
Variable network : nat -> AxiosRequest -> AxiosResult.

(** [process.env] and the [config] object built from it. *)
Variable env : Env.
Variable config : Config.

Definition engineError (k : EngineError) : JsError :=
  {| message := engineMessage k; response := None |}.

(** [await axios(req)]: the request is issued and logged; a rejection is
    thrown. *)
Definition axios (req : AxiosRequest) : M AxiosResponse :=
  fun st =>
    let st' := {| calls := calls st ++ [req]; retries := retries st; res := res st |} in
    match network (length (calls st)) req with
    | Resolved r => Some (Return r, st')
    | Rejected e => Some (Throw e, st')
    end.

(** [d.pipe(res)]: a stream is relayed to the client; on anything else
    the call is a [TypeError]. *)
Definition pipe (d : Data) : M unit :=
  match d with
  | Stream bytes => write (Piped bytes)
  | Value JUndefined | Value JNull => throw (engineError NoSuchProperty)
  | Value _ => throw (engineError NotAFunction)
  end.

(** *** The retrying fetcher *)

(** An optional string used as a condition: present and not empty. *)
Definition whenTruthy (o : option string) : option string :=
  match o with
  | Some a => if JsString.truthy a then Some a else None
  | None => None
  end.

(** [targetUrl.includes('/api.php/provide/vod') ||
     req.headers.accept?.includes('application/json')] as a condition *)
Definition isApiRequest (targetUrl : string) (accept : option string) : bool :=
  JsString.includes targetUrl "/api.php/provide/vod"
  || match accept with
     | Some a => JsString.includes a "application/json"
     | None => false
     end.

Definition proxyRequest (targetUrl : string) (isApi : bool) (accept : option string)
  : AxiosRequest :=
  {| url := targetUrl;
     responseType := if isApi then RJson else RStream;
     timeout := cfgTimeout config;
     requestHeaders :=
       [("User-Agent", userAgent config);
        ("Accept", match whenTruthy accept with
                   | Some a => a
                   | None => if isApi then "application/json" else "*/*"
                   end)] |}.

(** [makeRequest]: the request is issued; when it fails and
    [retries < maxRetries], the counter is incremented and the request
    is issued again, else the error is thrown on. [fuel] bounds the
    depth of the recursion. *)
Fixpoint makeRequest (fuel : nat) (req : AxiosRequest) : M AxiosResponse :=
  match fuel with
  | O => fun _ => None
  | S fuel' =>
      tryCatch (axios req)
        (fun error =>
           r <- getRetries ;;
           if r <? maxRetries config then
             setRetries (r + 1) ;;
             makeRequest fuel' req
           else throw error)
  end.

(** Depth that the recursion of [makeRequest] cannot exceed when it
    starts with [retries = 0]. *)
Definition enoughFuel : nat := S (Z.to_nat (maxRetries config)).

(** The state once [req] has been issued [n] more times and the counter
    has been incremented [k] times. *)
Definition attempted (st : St) (req : AxiosRequest) (n k : nat) : St :=
  {| calls := calls st ++ repeat req n;
     retries := retries st + Z.of_nat k;
     res := res st |}.

(** The outbound request with 1-based number [k] among those the
    handler issues from state [st] on. *)
Definition attempt (st : St) (k : nat) (req : AxiosRequest) : AxiosResult :=
  network (length (calls st) + k - 1) req.

Definition failed (a : AxiosResult) : Prop := exists e, a = Rejected e.

(** *** The header filter *)

Definition sensitiveHeaders : list string :=
  JsString.split ","
    (env_or env "FILTERED_HEADERS"
       "content-security-policy,cookie,set-cookie,x-frame-options,access-control-allow-origin").

(** [headers = { ...h }; sensitiveHeaders.forEach(header => delete headers[header])] *)
Definition sanitize (h : gmap string string) : gmap string string :=
  fold_left (fun acc header => delete header acc) sensitiveHeaders h.

(** Membership in the filter list up to the case of the ASCII letters. *)
Definition inFilterList (name : string) : Prop :=
  exists f, In f sensitiveHeaders
            /\ JsString.toLowerCase f = JsString.toLowerCase name.

Definition lowerCased (name : string) : Prop := JsString.toLowerCase name = name.

(** *** The proxy route *)

Definition proxyBody (encodedUrl : string) (accept : option string) : M unit :=
  match decodeURIComponent encodedUrl with
  | None => throw (engineError URIMalformed)
  | Some targetUrl =>
      if negb (isValidUrl URL env targetUrl) then
        res_status 400 ;; res_send (Value (JStr "无效的 URL"))
      else
        let isApi := isApiRequest targetUrl accept in
        setRetries 0 ;;
        response <- makeRequest enoughFuel (proxyRequest targetUrl isApi accept) ;;
        res_set (sanitize (headers response)) ;;
        if isApi then res_json (data response)
        else pipe (data response)
  end.

Definition proxyCatch (error : JsError) : M unit :=
  match response error with
  | Some r =>
      if dataTruthy (data r) && hasPipe (data r) then
        res_status (num_or (status r) 500) ;;
        pipe (data r)
      else
        res_status (num_or (status r) 500) ;;
        res_send (data_or (data r) (Value (JStr "代理请求失败")))
  | None =>
      res_status 500 ;;
      res_send (Value (JStr ("请求失败: " ++ message error)))
  end.

(** [app.get('/proxy/:encodedUrl', ...)] *)
Definition proxyRoute (encodedUrl : string) (accept : option string) : M unit :=
  tryCatch (proxyBody encodedUrl accept) proxyCatch.

(** *** The aggregation routes *)

(** The own entries of the registry object read from [js/config.js]. *)
Variable API_SITES : gmap string Site.
Variable API_CONFIG : ApiConfig.

(** The property names that the registry, a plain object, inherits from
    [Object.prototype]. Their values are functions (an object for
    [__proto__]): truthy, and without an [api] field. *)
Definition inheritedNames : list string :=
  ["constructor"; "toString"; "toLocaleString"; "valueOf"; "hasOwnProperty";
   "isPrototypeOf"; "propertyIsEnumerable"; "__proto__";
   "__defineGetter__"; "__defineSetter__"; "__lookupGetter__"; "__lookupSetter__"].

(** What [API_SITES[name]] reads: an own entry, else an inherited
    property, else [undefined]. *)
Inductive SiteRead :=
| OwnSite (site : Site)
| Inherited
| Undefined.

Definition readSite (name : string) : SiteRead :=
  match API_SITES !! name with
  | Some site => OwnSite site
  | None => if JsString.array_includes inheritedNames name then Inherited else Undefined
  end.

(** [`${API_SITES[source].api}`] when [API_SITES[source]] is truthy: the
    [api] of an own entry; the text [undefined] for an inherited property,
    which has no such field. [None] when [API_SITES[source]] is
    [undefined], hence falsy. *)
Definition siteApiText (read : SiteRead) : option string :=
  match read with
  | OwnSite site => Some (api site)
  | Inherited => Some "undefined"
  | Undefined => None
  end.

(** A parameter destructured with the default [''] *)
Definition orEmpty (o : option string) : string :=
  match o with Some v => v | None => "" end.

(** [apiUrl] of [/api/search]; [None] when reading [API_SITES.heimuer.api]
    throws because the registry has no such entry. *)
Definition searchApiUrl (q : Query) : option string :=
  let wd := orEmpty (wd q) in
  match whenTruthy (customApi q) with
  | Some customApi =>
      Some (customApi ++ searchPath API_CONFIG ++ encodeURIComponent wd)
  | None =>
      match whenTruthy (source q) ≫= (fun source => siteApiText (readSite source)) with
      | Some siteApi =>
          Some (siteApi ++ searchPath API_CONFIG ++ encodeURIComponent wd)
      | None =>
          match API_SITES !! "heimuer" with
          | Some heimuer =>
              Some (api heimuer ++ searchPath API_CONFIG ++ encodeURIComponent wd)
          | None => None
          end
      end
  end.

(** [apiUrl] of [/api/detail] *)
Definition detailApiUrl (q : Query) : option string :=
  let id := orEmpty (id q) in
  match whenTruthy (customApi q) with
  | Some customApi =>
      Some (customApi ++ detailPath API_CONFIG ++ id)
  | None =>
      match whenTruthy (source q) ≫= (fun source => siteApiText (readSite source)) with
      | Some siteApi =>
          Some (siteApi ++ detailPath API_CONFIG ++ id)
      | None =>
          match API_SITES !! "heimuer" with
          | Some heimuer =>
              Some (api heimuer ++ detailPath API_CONFIG ++ id)
          | None => None
          end
      end
  end.

(** The base of the upstream URL as the specification words it:
    [customApi] when supplied, else the registry entry of the site named
    by [source] when there is one, else the entry [heimuer]. *)
Definition specBase (q : Query) : option string :=
  match whenTruthy (customApi q) with
  | Some customApi => Some customApi
  | None =>
      match whenTruthy (source q) ≫= (fun source => API_SITES !! source) with
      | Some site => Some (api site)
      | None => api <$> API_SITES !! "heimuer"
      end
  end.

(** The base text that both routes put in front of the path template, by
    their common three-way choice: [customApi] when truthy, else
    [API_SITES[source].api] when [source] and [API_SITES[source]] are
    truthy, else [API_SITES.heimuer.api], whose reading throws ([None])
    when the registry has no own entry [heimuer]. *)
Definition resolveBase (q : Query) : option string :=
  match whenTruthy (customApi q) with
  | Some customApi => Some customApi
  | None =>
      match whenTruthy (source q) ≫= (fun source => siteApiText (readSite source)) with
      | Some siteApi => Some siteApi
      | None => api <$> API_SITES !! "heimuer"
      end
  end.

(** The request that an aggregation route sends to the server's own
    proxy route. *)
Definition selfRequest (apiUrl : string) (hdrs : list (string * string)) : AxiosRequest :=
  let proxyUrl := "/proxy/" ++ encodeURIComponent apiUrl in
  {| url := "http://localhost:" ++ port config ++ proxyUrl;
     responseType := RJson;
     timeout := cfgTimeout config;
     requestHeaders := hdrs |}.

Definition envelope (msg : string) (error : JsError) : Data :=
  Value (JObject [("code", JNum 500); ("msg", JStr msg); ("error", JStr (message error))]).

(** [app.get('/api/search', ...)] *)
Definition searchRoute (q : Query) : M unit :=
  tryCatch
    (match searchApiUrl q with
     | None => throw (engineError NoSuchProperty)
     | Some apiUrl =>
         response <- axios (selfRequest apiUrl (searchHeaders API_CONFIG)) ;;
         res_json (data response)
     end)
    (fun error => res_status 500 ;; res_json (envelope "API聚合失败" error)).

(** [app.get('/api/detail', ...)] *)
Definition detailRoute (q : Query) : M unit :=
  tryCatch
    (match detailApiUrl q with
     | None => throw (engineError NoSuchProperty)
     | Some apiUrl =>
         response <- axios (selfRequest apiUrl (detailHeaders API_CONFIG)) ;;
         res_json (data response)
     end)
    (fun error => res_status 500 ;; res_json (envelope "详情API失败" error)).


(** *** The page routes *)

(** The files next to the server, by their name under [__dirname]; the
    hexadecimal SHA-256 digest; [config.password] and
    [config.adminpassword]. *)
Variable readFileSync : string -> FileRead.
Variable sha256Hex : string -> string.
Variable password : string.
Variable adminpassword : string.

(** [renderPage(filePath, password)] *)
Definition renderPage (filePath pw : string) : M string :=
  match readFileSync filePath with
  | FileError e => throw e
  | FileText content =>
      let content :=
        if JsString.truthy pw
        then JsReplace.replace content "{{PASSWORD}}" (sha256Hex pw)
        else content in
      let content :=
        if JsString.truthy adminpassword
        then JsReplace.replace content "{{ADMINPASSWORD}}" (sha256Hex adminpassword)
        else content in
      ret content
  end.

(** The [switch (req.path)] of the page route *)
Definition pageFile (path : string) : string :=
  if String.eqb path "/player.html" then "player.html" else "index.html".

(** [app.get(['/', '/index.html', '/player.html'], ...)] *)
Definition pageRoute (path : string) : M unit :=
  tryCatch
    (content <- renderPage (pageFile path) password ;;
     res_send (Value (JStr content)))
    (fun error => res_status 500 ;; res_send (Value (JStr "读取静态页面失败"))).

(** [app.get('/s=:keyword', ...)] *)
Definition searchPageRoute : M unit :=
  tryCatch
    (content <- renderPage "index.html" password ;;
     res_send (Value (JStr content)))
    (fun error => res_status 500 ;; res_send (Value (JStr "读取静态页面失败"))).


(** * Properties *)

(** ** Strings *)

Lemma append_cons (c : ascii) (p rest : string) :
String c p ++ rest = String c (p ++ rest).
Proof. reflexivity. Qed.

Lemma startsWith_spec (s p : string) :
JsString.startsWith s p = true <-> exists rest, s = p ++ rest.
Proof.
revert s. induction p as [| c p IH]; intros s; simpl.
- split; [intros _; exists s; reflexivity | reflexivity].
- destruct s as [| d s]; simpl.
  + split; [discriminate | intros [rest H]; rewrite append_cons in H; discriminate].
  + destruct (Ascii.eqb c d) eqn:E.
    * apply Ascii.eqb_eq in E. subst d. rewrite IH.
      split; intros [rest H]; exists rest; rewrite append_cons in *; congruence.
    * apply Ascii.eqb_neq in E.
      split; [discriminate | intros [rest H]; rewrite append_cons in H; congruence].
Qed.

Lemma array_includes_In (arr : list string) (x : string) :
JsString.array_includes arr x = true <-> In x arr.
Proof.
unfold JsString.array_includes. rewrite existsb_exists. split.
- intros [y [Hy He]]. apply String.eqb_eq in He. congruence.
- intros H. exists x. split; [assumption | apply String.eqb_refl].
Qed.

Lemma prefixBlocked_spec (host : string) (prefixes : list string) :
prefixBlocked host prefixes = true <->
exists p, In p prefixes /\ JsString.startsWith host p = true.
Proof.
induction prefixes as [| q rest IH]; simpl.
- split; [discriminate | intros [p [[] _]]].
- destruct (JsString.startsWith host q) eqn:E.
  + split; [intros _; exists q; auto | reflexivity].
  + rewrite IH. split.
    * intros [p [Hin Hp]]. exists p. auto.
    * intros [p [[Heq | Hin] Hp]]; [congruence | exists p; auto].
Qed.

(** ** The URL validator *)

(** C1. [isValidUrl] is a total boolean function (a string that [URL]
    rejects is a normal [false]); it answers [false] exactly when the
    string does not parse as an absolute URL, or its protocol is neither
    [http:] nor [https:], or its hostname is an entry of the denied
    hostnames, or its hostname starts with a denied prefix; hence it
    answers [true] on every http/https URL whose hostname is not denied. *)
Theorem isValidUrl_false_iff (urlString : string) :
  (isValidUrl URL env urlString = false <->
     URL urlString = None
     \/ exists parsed, URL urlString = Some parsed
          /\ (~ In (protocol parsed) ["http:"; "https:"]
              \/ hostDenied env (hostname parsed)))
  /\ (forall parsed, URL urlString = Some parsed ->
        In (protocol parsed) ["http:"; "https:"] ->
        ~ hostDenied env (hostname parsed) ->
        isValidUrl URL env urlString = true).
Proof.
  assert (Hiff : isValidUrl URL env urlString = false <->
     URL urlString = None
     \/ exists parsed, URL urlString = Some parsed
          /\ (~ In (protocol parsed) ["http:"; "https:"]
              \/ hostDenied env (hostname parsed))).
  { unfold isValidUrl, hostDenied.
    destruct (URL urlString) as [parsed |] eqn:HU; [| split; auto].
    destruct (JsString.array_includes allowedProtocols (protocol parsed)) eqn:Hp; simpl.
    - apply array_includes_In in Hp.
      destruct (JsString.array_includes (blockedHostnames env) (hostname parsed)) eqn:Hh.
      + apply array_includes_In in Hh. split; [| reflexivity].
        intros _. right. exists parsed. auto.
      + destruct (prefixBlocked (hostname parsed) (blockedPrefixes env)) eqn:Hb.
        * apply prefixBlocked_spec in Hb. destruct Hb as [p [Hin Hs]].
          apply startsWith_spec in Hs. destruct Hs as [rest Hs].
          split; [| reflexivity]. intros _. right. exists parsed.
          split; [reflexivity |]. right. right. exists p, rest. auto.
        * split; [discriminate |].
          intros [Hn | [u [Hu [Hnp | [Hin | [p [rest [Hin Hs]]]]]]]].
          -- discriminate.
          -- injection Hu as <-. contradiction.
          -- injection Hu as <-. apply array_includes_In in Hin. congruence.
          -- injection Hu as <-.
             assert (prefixBlocked (hostname parsed) (blockedPrefixes env) = true).
             { apply prefixBlocked_spec. exists p. split; [assumption |].
               apply startsWith_spec. exists rest. assumption. }
             congruence.
    - split; [| reflexivity]. intros _. right. exists parsed.
      split; [reflexivity |]. left. intros Hin.
      pose proof (proj2 (array_includes_In allowedProtocols (protocol parsed)) Hin).
      congruence. }
  split; [exact Hiff |].
  intros parsed HU Hp Hd.
  destruct (isValidUrl URL env urlString) eqn:E; [reflexivity |].
  destruct (proj1 Hiff eq_refl) as [Hn | [u [Hu [Hnp | Hden]]]].
  - congruence.
  - rewrite HU in Hu. injection Hu as <-. contradiction.
  - rewrite HU in Hu. injection Hu as <-. contradiction.
Qed.


(** ** The retrying fetcher *)

Lemma attempted_zero (st : St) (req : AxiosRequest) : attempted st req 0 0 = st.
Proof.
  unfold attempted. destruct st as [cs r rs]. simpl.
  rewrite app_nil_r, Z.add_0_r. reflexivity.
Qed.

Lemma attempted_step (st : St) (req : AxiosRequest) (n k : nat) :
  attempted {| calls := calls st ++ [req]; retries := retries st + 1; res := res st |} req n k
  = attempted st req (S n) (S k).
Proof.
  unfold attempted. simpl. rewrite <- app_assoc. simpl.
  f_equal. lia.
Qed.

(** One attempt that succeeds. *)
Lemma makeRequest_resolved (fuel : nat) (req : AxiosRequest) (st : St) (r : AxiosResponse) :
  network (length (calls st)) req = Resolved r ->
  makeRequest (S fuel) req st = Some (Return r, attempted st req 1 0).
Proof.
  intros H. simpl. unfold tryCatch, axios. rewrite H.
  unfold attempted. simpl. rewrite Z.add_0_r. reflexivity.
Qed.

(** One attempt that fails when no retry is left. *)
Lemma makeRequest_exhausted (fuel : nat) (req : AxiosRequest) (st : St) (e : JsError) :
  network (length (calls st)) req = Rejected e ->
  ~ retries st < maxRetries config ->
  makeRequest (S fuel) req st = Some (Throw e, attempted st req 1 0).
Proof.
  intros H Hr. simpl. unfold tryCatch, axios. rewrite H.
  unfold bind, getRetries. simpl.
  destruct (Z.ltb_spec (retries st) (maxRetries config)) as [Hlt | Hge]; [contradiction |].
  unfold throw, attempted. simpl. rewrite Z.add_0_r. reflexivity.
Qed.

(** One attempt that fails while a retry is left. *)
Lemma makeRequest_retry (fuel : nat) (req : AxiosRequest) (st : St) (e : JsError) :
  network (length (calls st)) req = Rejected e ->
  retries st < maxRetries config ->
  makeRequest (S fuel) req st = makeRequest fuel req (attempted st req 1 1).
Proof.
  intros H Hr. simpl. unfold tryCatch, axios. rewrite H.
  unfold bind, getRetries. simpl.
  destruct (Z.ltb_spec (retries st) (maxRetries config)) as [Hlt | Hge]; [| lia].
  reflexivity.
Qed.

(** [j] failed attempts in a row, each followed by a retry. *)
Lemma makeRequest_retries (j fuel : nat) (req : AxiosRequest) (st : St) :
  (forall i, (i < j)%nat -> failed (network (length (calls st) + i) req)) ->
  retries st + Z.of_nat j <= maxRetries config ->
  makeRequest (j + fuel) req st = makeRequest fuel req (attempted st req j j).
Proof.
  revert st. induction j as [| j IH]; intros st Hfail Hle.
  - rewrite attempted_zero. reflexivity.
  - destruct (Hfail 0%nat ltac:(lia)) as [e He]. rewrite Nat.add_0_r in He.
    change (S j + fuel)%nat with (S (j + fuel)).
    rewrite (makeRequest_retry _ _ _ e He ltac:(lia)).
    rewrite IH.
    + unfold attempted at 2. simpl. rewrite attempted_step. reflexivity.
    + intros i Hi. unfold attempted. simpl. rewrite length_app. simpl.
      replace (length (calls st) + 1 + i)%nat with (length (calls st) + S i)%nat by lia.
      apply Hfail. lia.
    + unfold attempted. simpl. lia.
Qed.

(** The recursion budget is never the reason for stopping: with more
    fuel than retries left, [makeRequest] returns or throws, leaves the
    response object alone, and has only issued [req]. *)
Lemma makeRequest_returns (fuel : nat) (req : AxiosRequest) (st : St) :
  (Z.to_nat (maxRetries config - retries st) < fuel)%nat ->
  exists o n k, makeRequest fuel req st = Some (o, attempted st req (S n) k).
Proof.
  revert st. induction fuel as [| fuel IH]; intros st Hf; [lia |].
  destruct (network (length (calls st)) req) as [r | e] eqn:Hn.
  - exists (Return r), 0%nat, 0%nat. apply makeRequest_resolved. assumption.
  - destruct (Z.lt_ge_cases (retries st) (maxRetries config)) as [Hlt | Hge].
    + rewrite (makeRequest_retry _ _ _ e Hn Hlt).
      destruct (IH (attempted st req 1 1)) as [o [n [k Hk]]].
      { unfold attempted. simpl. lia. }
      exists o, (S n), (S k). rewrite Hk. f_equal. f_equal.
      unfold attempted. simpl. rewrite <- app_assoc. simpl. f_equal. lia.
    + exists (Throw e), 0%nat, 0%nat. apply makeRequest_exhausted; [assumption | lia].
Qed.


(** Every attempt fails: the request is issued once and then once per
    permitted retry, and the last error is thrown. *)
Lemma makeRequest_all_fail (req : AxiosRequest) (st : St) :
  retries st = 0 ->
  let total := S (Z.to_nat (maxRetries config)) in
  (forall k, (1 <= k <= total)%nat -> failed (attempt st k req)) ->
  exists e,
    attempt st total req = Rejected e
    /\ makeRequest enoughFuel req st
       = Some (Throw e, attempted st req total (Z.to_nat (maxRetries config))).
Proof.
  intros Hr total Hfail. unfold enoughFuel. fold total.
  destruct (Hfail total ltac:(lia)) as [e He].
  exists e. split; [assumption |].
  set (m := Z.to_nat (maxRetries config)) in *.
  assert (Hrun : makeRequest total req st = makeRequest 1 req (attempted st req m m)).
  { unfold total. rewrite <- Nat.add_1_r.
    destruct m as [| m'] eqn:Hm; [rewrite attempted_zero; reflexivity |].
    apply makeRequest_retries.
    - intros i Hi. specialize (Hfail (S i) ltac:(unfold total; lia)).
      unfold attempt in Hfail.
      replace (length (calls st) + S i - 1)%nat with (length (calls st) + i)%nat in Hfail by lia.
      assumption.
    - lia. }
  rewrite Hrun.
  rewrite (makeRequest_exhausted 0 req (attempted st req m m) e).
  - f_equal. f_equal. unfold attempted, total. simpl.
    rewrite <- app_assoc, <- repeat_cons. f_equal. lia.
  - unfold attempted at 1. simpl. rewrite length_app, repeat_length.
    unfold attempt, total in He.
    replace (length (calls st) + S m - 1)%nat with (length (calls st) + m)%nat in He by lia.
    assumption.
  - unfold attempted. simpl. lia.
Qed.

(** Attempt [k] is the first to succeed and is within the budget: its
    response is returned after exactly [k] requests. *)
Lemma makeRequest_first_success (req : AxiosRequest) (st : St) (k : nat) (r : AxiosResponse) :
  retries st = 0 ->
  (1 <= k <= S (Z.to_nat (maxRetries config)))%nat ->
  (forall i, (1 <= i < k)%nat -> failed (attempt st i req)) ->
  attempt st k req = Resolved r ->
  makeRequest enoughFuel req st = Some (Return r, attempted st req k (k - 1)).
Proof.
  intros Hr Hk Hfail Hok. unfold enoughFuel.
  destruct k as [| j]; [lia |].
  set (m := Z.to_nat (maxRetries config)) in *.
  assert (Hrun : makeRequest (S m) req st = makeRequest (S (m - j)) req (attempted st req j j)).
  { replace (S m) with (j + S (m - j))%nat by lia.
    destruct j as [| j'] eqn:Hj; [rewrite attempted_zero; reflexivity |].
    apply makeRequest_retries.
    - intros i Hi. specialize (Hfail (S i) ltac:(lia)).
      unfold attempt in Hfail.
      replace (length (calls st) + S i - 1)%nat with (length (calls st) + i)%nat in Hfail by lia.
      assumption.
    - lia. }
  rewrite Hrun.
  rewrite (makeRequest_resolved (m - j) req (attempted st req j j) r).
  - f_equal. f_equal. unfold attempted. simpl.
    rewrite <- app_assoc, <- repeat_cons. f_equal. lia.
  - unfold attempted at 1. simpl. rewrite length_app, repeat_length.
    unfold attempt in Hok.
    replace (length (calls st) + S j - 1)%nat with (length (calls st) + j)%nat in Hok by lia.
    assumption.
Qed.

(** C2. With a non-negative [maxRetries] and the counter at zero: when
    every attempt fails, the fetcher issues the request exactly
    [maxRetries + 1] times and throws the error of the last attempt;
    when attempt [k <= maxRetries + 1] is the first to succeed, the
    fetcher returns that response and has issued the request exactly
    [k] times. *)
Theorem makeRequest_attempts (req : AxiosRequest) (st : St) :
  0 <= maxRetries config ->
  retries st = 0 ->
  let total := S (Z.to_nat (maxRetries config)) in
  ((forall k, (1 <= k <= total)%nat -> failed (attempt st k req)) ->
     exists e st',
       attempt st total req = Rejected e
       /\ makeRequest enoughFuel req st = Some (Throw e, st')
       /\ calls st' = (calls st ++ repeat req total)%list
       /\ Z.of_nat (length (calls st')) = Z.of_nat (length (calls st)) + maxRetries config + 1)
  /\ (forall k r,
        (1 <= k <= total)%nat ->
        (forall i, (1 <= i < k)%nat -> failed (attempt st i req)) ->
        attempt st k req = Resolved r ->
        exists st',
          makeRequest enoughFuel req st = Some (Return r, st')
          /\ calls st' = (calls st ++ repeat req k)%list).
Proof.
  intros Hmax Hr total. split.
  - intros Hfail.
    destruct (makeRequest_all_fail req st Hr Hfail) as [e [He Hrun]].
    exists e. eexists. split; [exact He |]. split; [exact Hrun |].
    unfold attempted; cbn [calls]. split; [reflexivity |].
    rewrite length_app, repeat_length. unfold total. lia.
  - intros k r Hk Hfail Hok.
    eexists. split; [apply makeRequest_first_success; eassumption |].
    reflexivity.
Qed.

(** ** The header filter *)

Lemma delete_all_lookup (names : list string) (h : gmap string string) (k : string) :
  fold_left (fun acc header => delete header acc) names h !! k
  = if JsString.array_includes names k then None else h !! k.
Proof.
  revert h. induction names as [| n names IH]; intros h; simpl; [reflexivity |].
  rewrite IH. unfold JsString.array_includes in *.
  destruct (existsb (String.eqb k) names); simpl.
  - rewrite orb_true_r. reflexivity.
  - rewrite orb_false_r. destruct (String.eqb_spec k n) as [-> | Hne].
    + apply lookup_delete_eq.
    + apply lookup_delete_ne. congruence.
Qed.

Lemma sanitize_lookup (h : gmap string string) (k : string) :
  sanitize h !! k = if JsString.array_includes sensitiveHeaders k then None else h !! k.
Proof. apply delete_all_lookup. Qed.

Lemma sanitize_removes (h : gmap string string) (k : string) :
  In k sensitiveHeaders -> sanitize h !! k = None.
Proof.
  intros Hin. rewrite sanitize_lookup.
  apply array_includes_In in Hin. rewrite Hin. reflexivity.
Qed.

Lemma sanitize_keeps (h : gmap string string) (k : string) :
  ~ In k sensitiveHeaders -> sanitize h !! k = h !! k.
Proof.
  intros Hin. rewrite sanitize_lookup.
  destruct (JsString.array_includes sensitiveHeaders k) eqn:E; [| reflexivity].
  apply array_includes_In in E. contradiction.
Qed.

(** C5, amended. The filter removes exactly the headers whose name is
    equal to an entry of the filter list, and gives every other header
    with its value unchanged; when the entries of the list and the
    header name are in lower case, these are the headers that are in the
    list up to case. *)
Theorem sanitize_exact_names (h : gmap string string) (k : string) :
  (In k sensitiveHeaders -> sanitize h !! k = None)
  /\ (~ In k sensitiveHeaders -> sanitize h !! k = h !! k)
  /\ ((forall f, In f sensitiveHeaders -> lowerCased f) ->
      lowerCased k ->
      (inFilterList k -> sanitize h !! k = None)
      /\ (~ inFilterList k -> sanitize h !! k = h !! k)).
Proof.
  split; [apply sanitize_removes |]. split; [apply sanitize_keeps |].
  intros Hlow Hk. split.
  - intros [f [Hin Heq]]. apply sanitize_removes.
    unfold lowerCased in *. rewrite (Hlow f Hin), Hk in Heq. subst f. assumption.
  - intros Hn. apply sanitize_keeps. intros Hin. apply Hn.
    exists k. split; [assumption | reflexivity].
Qed.

(** ** The proxy route *)

(** The fetcher leaves the response object alone and only issues [req]. *)
Lemma makeRequest_res (req : AxiosRequest) (st st1 : St) (o : Outcome AxiosResponse) :
  retries st = 0 ->
  makeRequest enoughFuel req st = Some (o, st1) ->
  res st1 = res st /\ exists n, calls st1 = (calls st ++ repeat req (S n))%list.
Proof.
  intros Hr Hrun.
  destruct (makeRequest_returns enoughFuel req st) as [o' [n [k Hk]]].
  { unfold enoughFuel. rewrite Hr, Z.sub_0_r. lia. }
  rewrite Hk in Hrun. injection Hrun as _ <-.
  split; [reflexivity | exists n; reflexivity].
Qed.

(** The route on a target that decodes and passes validation. *)
Lemma proxyRoute_valid (encodedUrl targetUrl : string) (accept : option string) :
  decodeURIComponent encodedUrl = Some targetUrl ->
  isValidUrl URL env targetUrl = true ->
  proxyRoute encodedUrl accept initSt
  = tryCatch
      (response <- makeRequest enoughFuel
                     (proxyRequest targetUrl (isApiRequest targetUrl accept) accept) ;;
       res_set (sanitize (headers response)) ;;
       if isApiRequest targetUrl accept then res_json (data response)
       else pipe (data response))
      proxyCatch initSt.
Proof.
  intros Hd Hv. unfold proxyRoute, proxyBody, tryCatch. rewrite Hd, Hv. simpl.
  reflexivity.
Qed.

(** The route never runs out of recursion budget: it always finishes,
    by returning or with an error thrown out of its [catch] block. *)
Lemma proxy_returns (encodedUrl : string) (accept : option string) :
  exists o st', proxyRoute encodedUrl accept initSt = Some (o, st').
Proof.
  assert (Hcatch : forall e st, exists o st', proxyCatch e st = Some (o, st')).
  { intros e st. unfold proxyCatch.
    destruct (response e) as [r |]; [| eexists; eexists; reflexivity].
    destruct (dataTruthy (data r) && hasPipe (data r)).
    - destruct (data r) as [b | []]; eexists; eexists; reflexivity.
    - eexists; eexists; reflexivity. }
  destruct (decodeURIComponent encodedUrl) as [targetUrl |] eqn:Hd.
  2: { unfold proxyRoute, tryCatch, proxyBody. rewrite Hd. apply Hcatch. }
  destruct (isValidUrl URL env targetUrl) eqn:Hv.
  2: { unfold proxyRoute, tryCatch, proxyBody. rewrite Hd, Hv.
       eexists; eexists; reflexivity. }
  rewrite (proxyRoute_valid _ _ _ Hd Hv).
  destruct (makeRequest_returns enoughFuel
              (proxyRequest targetUrl (isApiRequest targetUrl accept) accept) initSt)
    as [o [n [k Hk]]].
  { unfold enoughFuel. simpl. rewrite Z.sub_0_r. lia. }
  unfold tryCatch, bind. rewrite Hk.
  destruct o as [r | e]; [| apply Hcatch].
  destruct (isApiRequest targetUrl accept).
  - eexists; eexists; reflexivity.
  - destruct (data r) as [b | v].
    + eexists; eexists; reflexivity.
    + destruct v; simpl; apply Hcatch.
Qed.

(** The route once the fetcher has returned a response. *)
Lemma proxyRoute_fetched (encodedUrl targetUrl : string) (accept : option string)
      (response : AxiosResponse) (st1 : St) :
  decodeURIComponent encodedUrl = Some targetUrl ->
  isValidUrl URL env targetUrl = true ->
  makeRequest enoughFuel (proxyRequest targetUrl (isApiRequest targetUrl accept) accept) initSt
  = Some (Return response, st1) ->
  proxyRoute encodedUrl accept initSt
  = tryCatch
      (res_set (sanitize (headers response)) ;;
       if isApiRequest targetUrl accept then res_json (data response)
       else pipe (data response))
      proxyCatch st1
  /\ res st1 = freshRes.
Proof.
  intros Hd Hv Hrun. rewrite (proxyRoute_valid _ _ _ Hd Hv).
  split.
  - unfold tryCatch, bind at 1. rewrite Hrun. reflexivity.
  - apply (makeRequest_res _ initSt st1 _ eq_refl Hrun).
Qed.

(** The route once the fetcher has thrown. *)
Lemma proxyRoute_faulted (encodedUrl targetUrl : string) (accept : option string)
      (error : JsError) (st1 : St) :
  decodeURIComponent encodedUrl = Some targetUrl ->
  isValidUrl URL env targetUrl = true ->
  makeRequest enoughFuel (proxyRequest targetUrl (isApiRequest targetUrl accept) accept) initSt
  = Some (Throw error, st1) ->
  proxyRoute encodedUrl accept initSt = proxyCatch error st1
  /\ res st1 = freshRes.
Proof.
  intros Hd Hv Hrun. rewrite (proxyRoute_valid _ _ _ Hd Hv).
  split.
  - unfold tryCatch, bind at 1. rewrite Hrun. reflexivity.
  - apply (makeRequest_res _ initSt st1 _ eq_refl Hrun).
Qed.

(** C3, amended. When the target is valid, the mode is stream and the
    fetcher returns a response whose data is a stream, the route answers
    with the status left at its default 200 whatever the upstream status
    is, hands the filtered upstream headers to the response ([set-cookie]
    is not among them when the filter list names it), and pipes the
    upstream bytes to the client. *)
Theorem stream_success_response (encodedUrl targetUrl : string) (accept : option string)
        (response : AxiosResponse) (bytes : string) (st1 : St) :
  decodeURIComponent encodedUrl = Some targetUrl ->
  isValidUrl URL env targetUrl = true ->
  isApiRequest targetUrl accept = false ->
  makeRequest enoughFuel (proxyRequest targetUrl false accept) initSt
  = Some (Return response, st1) ->
  data response = Stream bytes ->
  exists st',
    proxyRoute encodedUrl accept initSt = Some (Return tt, st')
    /\ statusCode (res st') = 200
    /\ setHeaders (res st') = sanitize (headers response)
    /\ (In "set-cookie" sensitiveHeaders -> setHeaders (res st') !! "set-cookie" = None)
    /\ payload (res st') = Some (Piped bytes).
Proof.
  intros Hd Hv Hapi Hrun Hdata.
  rewrite <- Hapi in Hrun.
  destruct (proxyRoute_fetched _ _ _ _ _ Hd Hv Hrun) as [Heq Hres].
  rewrite Heq, Hapi, Hdata.
  eexists. split; [reflexivity |]. simpl. rewrite Hres. simpl.
  rewrite (right_id_L ∅ (∪)).
  repeat split; try reflexivity.
  apply sanitize_removes.
Qed.

(** C9. When the target is valid, the mode is json and the fetcher
    returns a response, the route answers with status 200, whatever the
    status of the upstream response, and with the parsed body as the
    JSON document. *)
Theorem json_success_response (encodedUrl targetUrl : string) (accept : option string)
        (response : AxiosResponse) (st1 : St) :
  decodeURIComponent encodedUrl = Some targetUrl ->
  isValidUrl URL env targetUrl = true ->
  isApiRequest targetUrl accept = true ->
  makeRequest enoughFuel (proxyRequest targetUrl true accept) initSt
  = Some (Return response, st1) ->
  exists st',
    proxyRoute encodedUrl accept initSt = Some (Return tt, st')
    /\ statusCode (res st') = 200
    /\ payload (res st') = Some (SentJson (data response)).
Proof.
  intros Hd Hv Hapi Hrun.
  rewrite <- Hapi in Hrun.
  destruct (proxyRoute_fetched _ _ _ _ _ Hd Hv Hrun) as [Heq Hres].
  rewrite Heq, Hapi.
  eexists. split; [reflexivity |]. simpl. rewrite Hres. simpl.
  split; reflexivity.
Qed.

(** C6. A target that fails validation is answered with status 400 and
    no outbound request is issued; a valid target whose every attempt
    fails without any response is answered with status 500 and a message
    made of a fixed prefix and the message of the last error. *)
Theorem validation_and_transport_faults (encodedUrl targetUrl : string)
        (accept : option string) :
  decodeURIComponent encodedUrl = Some targetUrl ->
  (isValidUrl URL env targetUrl = false ->
     exists st',
       proxyRoute encodedUrl accept initSt = Some (Return tt, st')
       /\ statusCode (res st') = 400
       /\ payload (res st') = Some (Sent (Value (JStr "无效的 URL")))
       /\ calls st' = [])
  /\ (isValidUrl URL env targetUrl = true ->
      let req := proxyRequest targetUrl (isApiRequest targetUrl accept) accept in
      let total := S (Z.to_nat (maxRetries config)) in
      (forall k, (1 <= k <= total)%nat ->
         exists e, attempt initSt k req = Rejected e /\ response e = None) ->
      exists e st',
        attempt initSt total req = Rejected e
        /\ proxyRoute encodedUrl accept initSt = Some (Return tt, st')
        /\ statusCode (res st') = 500
        /\ payload (res st') = Some (Sent (Value (JStr ("请求失败: " ++ message e))))
        /\ calls st' = repeat req total).
Proof.
  intros Hd. split.
  - intros Hv. unfold proxyRoute, proxyBody, tryCatch. rewrite Hd, Hv. simpl.
    eexists. split; [reflexivity |]. simpl. repeat split; reflexivity.
  - intros Hv req total Hfail.
    destruct (makeRequest_all_fail req initSt eq_refl) as [e [He Hrun]].
    { intros k Hk. destruct (Hfail k Hk) as [e [He _]]. exists e. exact He. }
    destruct (Hfail total ltac:(lia)) as [e' [He' Hnone]].
    fold total in He. rewrite He in He'. injection He' as <-.
    destruct (proxyRoute_faulted _ _ _ _ _ Hd Hv Hrun) as [Heq _].
    exists e. eexists. split; [exact He |].
    rewrite Heq. unfold proxyCatch. rewrite Hnone.
    split; [reflexivity |]. simpl. repeat split; reflexivity.
Qed.

(** X23. What the [catch] block does with a fault that carries an
    upstream response: the route answers with the status of that
    response, not with 500; a body that is a stream is piped to the
    client; a body that is a plain value and has no [pipe] field is sent
    as it is when it is truthy, and is replaced by a fixed failure
    message when it is falsy in the sense of [||] (absent, null, the empty
    string, but also 0 and false). The fault is the one the fetcher
    surfaces, that is the one of its last attempt. *)
Theorem upstream_status_fault_response (encodedUrl targetUrl : string)
        (accept : option string) (error : JsError) (r : AxiosResponse) (st1 : St) :
  decodeURIComponent encodedUrl = Some targetUrl ->
  isValidUrl URL env targetUrl = true ->
  makeRequest enoughFuel (proxyRequest targetUrl (isApiRequest targetUrl accept) accept) initSt
  = Some (Throw error, st1) ->
  response error = Some r ->
  status r <> 0 ->
  (forall v, data r = Value v -> truthy v = true -> truthy (getField "pipe" v) = false) ->
  exists st',
    proxyRoute encodedUrl accept initSt = Some (Return tt, st')
    /\ statusCode (res st') = status r
    /\ payload (res st')
       = Some (match data r with
               | Stream bytes => Piped bytes
               | Value v => if truthy v then Sent (Value v)
                            else Sent (Value (JStr "代理请求失败"))
               end).
Proof.
  intros Hd Hv Hrun Hresp Hst Hpipe.
  destruct (proxyRoute_faulted _ _ _ _ _ Hd Hv Hrun) as [Heq Hres].
  rewrite Heq. unfold proxyCatch. rewrite Hresp.
  assert (Hnum : num_or (status r) 500 = status r).
  { unfold num_or. destruct (Z.eqb_spec (status r) 0); [contradiction | reflexivity]. }
  rewrite Hnum.
  destruct (dataTruthy (data r)) eqn:Ht; simpl.
  - destruct (hasPipe (data r)) eqn:Hp.
    + destruct (data r) as [bytes | v] eqn:Hdata.
      * eexists. split; [reflexivity |]. simpl. split; reflexivity.
      * simpl in Ht, Hp. rewrite (Hpipe v eq_refl Ht) in Hp. discriminate.
    + eexists. split; [reflexivity |]. simpl. split; [reflexivity |].
      unfold data_or. rewrite Ht.
      destruct (data r) as [b | v]; [discriminate |]. simpl in Ht. rewrite Ht. reflexivity.
  - eexists. split; [reflexivity |]. simpl. split; [reflexivity |].
    unfold data_or. rewrite Ht.
    destruct (data r) as [b | v]; [discriminate |]. simpl in Ht. rewrite Ht. reflexivity.
Qed.

(** ** The aggregation routes *)

(** Both routes resolve the base as [resolveBase] does. The search route
    appends its path template and the URL-encoded keyword. *)
Lemma searchApiUrl_composed (q : Query) :
  searchApiUrl q
  = (fun base => base ++ searchPath API_CONFIG ++ encodeURIComponent (orEmpty (wd q)))
      <$> resolveBase q.
Proof.
  unfold searchApiUrl, resolveBase.
  destruct (whenTruthy (customApi q)); [reflexivity |].
  destruct (whenTruthy (source q) ≫= (fun source => siteApiText (readSite source)));
    [reflexivity |].
  destruct (API_SITES !! "heimuer"); reflexivity.
Qed.

(** The detail route appends its path template and the id as it came. *)
Lemma detailApiUrl_composed (q : Query) :
  detailApiUrl q
  = (fun base => base ++ detailPath API_CONFIG ++ orEmpty (id q)) <$> resolveBase q.
Proof.
  unfold detailApiUrl, resolveBase.
  destruct (whenTruthy (customApi q)); [reflexivity |].
  destruct (whenTruthy (source q) ≫= (fun source => siteApiText (readSite source)));
    [reflexivity |].
  destruct (API_SITES !! "heimuer"); reflexivity.
Qed.

(** The base resolved is the one the specification words, as long as
    [source] does not name a property that the registry only inherits. *)
Lemma resolveBase_specBase (q : Query) :
  (forall name, whenTruthy (source q) = Some name -> readSite name <> Inherited) ->
  resolveBase q = specBase q.
Proof.
  intros Hown. unfold resolveBase, specBase.
  destruct (whenTruthy (customApi q)); [reflexivity |].
  destruct (whenTruthy (source q)) as [name |]; [| reflexivity].
  specialize (Hown name eq_refl). simpl. unfold readSite in *.
  destruct (API_SITES !! name); [reflexivity |].
  destruct (JsString.array_includes inheritedNames name); [congruence | reflexivity].
Qed.

Lemma append_empty (s : string) : s ++ "" = s.
Proof. induction s as [| c s IH]; [reflexivity |]. rewrite append_cons, IH. reflexivity. Qed.

(** An aggregation route once its URL is composed: one request to the
    server's own proxy route, whose result decides the answer. *)
Lemma aggregate_run (apiUrl : string) (hdrs : list (string * string)) (msg : string) :
  tryCatch
    (response <- axios (selfRequest apiUrl hdrs) ;; res_json (data response))
    (fun error => res_status 500 ;; res_json (envelope msg error)) initSt
  = Some (Return tt,
          {| calls := [selfRequest apiUrl hdrs];
             retries := 0;
             res := match network 0 (selfRequest apiUrl hdrs) with
                    | Resolved r =>
                        {| statusCode := 200; setHeaders := ∅;
                           payload := Some (SentJson (data r)) |}
                    | Rejected e =>
                        {| statusCode := 500; setHeaders := ∅;
                           payload := Some (SentJson (envelope msg e)) |}
                    end |}).
Proof.
  unfold tryCatch, bind, axios. simpl.
  destruct (network 0 (selfRequest apiUrl hdrs)); reflexivity.
Qed.

(** C7. When the delegated call of an aggregation route fails, whatever
    the error carries (an upstream status, a stream), the route answers
    with status 500 and the JSON document
    [{code: 500, msg: <message of the operation>, error: <error message>}]. *)
Theorem aggregation_fault_envelope (q : Query) (apiUrl : string) (error : JsError) :
  (searchApiUrl q = Some apiUrl ->
   network 0 (selfRequest apiUrl (searchHeaders API_CONFIG)) = Rejected error ->
   exists st',
     searchRoute q initSt = Some (Return tt, st')
     /\ statusCode (res st') = 500
     /\ payload (res st')
        = Some (SentJson (Value (JObject [("code", JNum 500);
                                          ("msg", JStr "API聚合失败");
                                          ("error", JStr (message error))]))))
  /\ (detailApiUrl q = Some apiUrl ->
      network 0 (selfRequest apiUrl (detailHeaders API_CONFIG)) = Rejected error ->
      exists st',
        detailRoute q initSt = Some (Return tt, st')
        /\ statusCode (res st') = 500
        /\ payload (res st')
           = Some (SentJson (Value (JObject [("code", JNum 500);
                                             ("msg", JStr "详情API失败");
                                             ("error", JStr (message error))])))).
Proof.
  split; intros Hurl Hnet.
  - unfold searchRoute. rewrite Hurl, aggregate_run, Hnet.
    eexists. split; [reflexivity |]. split; reflexivity.
  - unfold detailRoute. rewrite Hurl, aggregate_run, Hnet.
    eexists. split; [reflexivity |]. split; reflexivity.
Qed.

(** C10. With [wd] (for search) or [id] (for detail) absent from the
    query, the parameter is the empty string: the composed URL is the
    resolved base followed by the path template of the operation, and the
    route issues exactly one request, to its own proxy route under
    [/proxy/] followed by that URL encoded, with the headers of the
    operation; the answer is then the result of that request, not a
    rejection of the query. *)
Theorem absent_parameter_delegates (q : Query) (base : string) :
  resolveBase q = Some base ->
  (wd q = None ->
   let apiUrl := base ++ searchPath API_CONFIG in
   searchApiUrl q = Some apiUrl
   /\ exists st' req,
        searchRoute q initSt = Some (Return tt, st')
        /\ calls st' = [req]
        /\ url req = "http://localhost:" ++ port config ++ "/proxy/" ++ encodeURIComponent apiUrl
        /\ requestHeaders req = searchHeaders API_CONFIG
        /\ timeout req = cfgTimeout config
        /\ (forall r, network 0 req = Resolved r ->
                      statusCode (res st') = 200
                      /\ payload (res st') = Some (SentJson (data r))))
  /\ (id q = None ->
      let apiUrl := base ++ detailPath API_CONFIG in
      detailApiUrl q = Some apiUrl
      /\ exists st' req,
           detailRoute q initSt = Some (Return tt, st')
           /\ calls st' = [req]
           /\ url req = "http://localhost:" ++ port config ++ "/proxy/" ++ encodeURIComponent apiUrl
           /\ requestHeaders req = detailHeaders API_CONFIG
           /\ timeout req = cfgTimeout config
           /\ (forall r, network 0 req = Resolved r ->
                         statusCode (res st') = 200
                         /\ payload (res st') = Some (SentJson (data r)))).
Proof.
  intros Hbase. split; intros Hnone apiUrl.
  - assert (Hurl : searchApiUrl q = Some apiUrl).
    { rewrite searchApiUrl_composed, Hbase, Hnone. simpl.
      rewrite append_empty. reflexivity. }
    split; [exact Hurl |].
    unfold searchRoute. rewrite Hurl, aggregate_run.
    eexists. exists (selfRequest apiUrl (searchHeaders API_CONFIG)).
    split; [reflexivity |]. split; [reflexivity |].
    split; [reflexivity |]. split; [reflexivity |]. split; [reflexivity |].
    intros r Hr. simpl. rewrite Hr. split; reflexivity.
  - assert (Hurl : detailApiUrl q = Some apiUrl).
    { rewrite detailApiUrl_composed, Hbase, Hnone. simpl.
      rewrite append_empty. reflexivity. }
    split; [exact Hurl |].
    unfold detailRoute. rewrite Hurl, aggregate_run.
    eexists. exists (selfRequest apiUrl (detailHeaders API_CONFIG)).
    split; [reflexivity |]. split; [reflexivity |].
    split; [reflexivity |]. split; [reflexivity |]. split; [reflexivity |].
    intros r Hr. simpl. rewrite Hr. split; reflexivity.
Qed.

(** * Further properties *)

(** ** The fetcher under any network *)

(** What a run of the fetcher amounts to: some number [n] of failed
    attempts, each followed by a retry, then one last attempt whose result
    is the outcome; an error comes out only when no retry is left. *)
Lemma makeRequest_outcome (fuel : nat) (req : AxiosRequest) (st : St) :
  (Z.to_nat (maxRetries config - retries st) < fuel)%nat ->
  exists o n,
    makeRequest fuel req st = Some (o, attempted st req (S n) n)
    /\ (n <= Z.to_nat (maxRetries config - retries st))%nat
    /\ (forall i, (i < n)%nat -> failed (network (length (calls st) + i) req))
    /\ match o with
       | Return r => network (length (calls st) + n) req = Resolved r
       | Throw e => network (length (calls st) + n) req = Rejected e
                    /\ maxRetries config <= retries st + Z.of_nat n
       end.
Proof.
  revert st. induction fuel as [| fuel IH]; intros st Hf; [lia |].
  destruct (network (length (calls st)) req) as [r | e] eqn:Hn.
  - exists (Return r), 0%nat.
    split; [apply makeRequest_resolved; assumption |].
    split; [lia |]. split; [intros i Hi; lia |].
    rewrite Nat.add_0_r. assumption.
  - destruct (Z.lt_ge_cases (retries st) (maxRetries config)) as [Hlt | Hge].
    + rewrite (makeRequest_retry _ _ _ e Hn Hlt).
      destruct (IH (attempted st req 1 1)) as [o [n [Hrun [Hle [Hfail Hlast]]]]].
      { unfold attempted. simpl. lia. }
      assert (Hlen : length (calls (attempted st req 1 1)) = S (length (calls st))).
      { unfold attempted. simpl. rewrite length_app. simpl. lia. }
      rewrite Hlen in Hfail, Hlast.
      exists o, (S n). split; [| split; [| split]].
      * rewrite Hrun. f_equal. f_equal.
        unfold attempted. simpl. rewrite <- app_assoc. simpl. f_equal. lia.
      * unfold attempted in Hle. simpl in Hle. lia.
      * intros i Hi. destruct i as [| i].
        -- rewrite Nat.add_0_r. exists e. assumption.
        -- replace (length (calls st) + S i)%nat with (S (length (calls st)) + i)%nat by lia.
           apply Hfail. lia.
      * replace (length (calls st) + S n)%nat with (S (length (calls st)) + n)%nat by lia.
        destruct o as [r | e']; [assumption |].
        destruct Hlast as [Hl Hb]. split; [assumption |].
        unfold attempted in Hb. simpl in Hb. lia.
    + exists (Throw e), 0%nat.
      split; [apply makeRequest_exhausted; [assumption | lia] |].
      split; [lia |]. split; [intros i Hi; lia |].
      rewrite Nat.add_0_r. split; [assumption | lia].
Qed.

(** X1. Whatever the network does, a fetch that starts with the counter at
    zero ends after at least one and at most [1 + max 0 maxRetries]
    requests, all of them the same request; with [maxRetries <= 0] it is
    exactly one request. *)
Theorem makeRequest_budget (req : AxiosRequest) (st : St) :
  retries st = 0 ->
  exists o st' n,
    makeRequest enoughFuel req st = Some (o, st')
    /\ calls st' = (calls st ++ repeat req (S n))%list
    /\ retries st' = Z.of_nat n
    /\ (n <= Z.to_nat (maxRetries config))%nat
    /\ (maxRetries config <= 0 -> n = 0%nat).
Proof.
  intros Hr.
  destruct (makeRequest_outcome enoughFuel req st) as [o [n [Hrun [Hle _]]]].
  { unfold enoughFuel. rewrite Hr, Z.sub_0_r. lia. }
  rewrite Hr, Z.sub_0_r in Hle.
  exists o, (attempted st req (S n) n), n.
  split; [exact Hrun |]. unfold attempted. cbn [calls retries].
  split; [reflexivity |]. split; [lia |]. split; [exact Hle | lia].
Qed.

(** X2. The outcome of a fetch is the result of the last request issued:
    every request before it was rejected; a response returned is the one
    the last request resolved with; an error thrown is the one the last
    request was rejected with, and then the whole budget of
    [1 + max 0 maxRetries] requests has been used. *)
Theorem makeRequest_last_attempt (req : AxiosRequest) (st : St) :
  retries st = 0 ->
  exists o st' n,
    makeRequest enoughFuel req st = Some (o, st')
    /\ length (calls st') = (length (calls st) + S n)%nat
    /\ (forall k, (1 <= k <= n)%nat -> failed (attempt st k req))
    /\ match o with
       | Return r => attempt st (S n) req = Resolved r
       | Throw e => attempt st (S n) req = Rejected e
                    /\ n = Z.to_nat (maxRetries config)
       end.
Proof.
  intros Hr.
  destruct (makeRequest_outcome enoughFuel req st) as [o [n [Hrun [Hle [Hfail Hlast]]]]].
  { unfold enoughFuel. rewrite Hr, Z.sub_0_r. lia. }
  rewrite Hr, Z.sub_0_r in Hle. rewrite Hr in Hlast.
  exists o, (attempted st req (S n) n), n.
  split; [exact Hrun |].
  split; [unfold attempted; cbn [calls]; rewrite length_app, repeat_length; reflexivity |].
  split.
  - intros k Hk. unfold attempt.
    replace (length (calls st) + k - 1)%nat with (length (calls st) + (k - 1))%nat by lia.
    apply Hfail. lia.
  - unfold attempt.
    replace (length (calls st) + S n - 1)%nat with (length (calls st) + n)%nat by lia.
    destruct o as [r | e]; [assumption |].
    destruct Hlast as [Hl Hb]. split; [assumption | lia].
Qed.

(** ** Every run of the proxy route *)

(** The [catch] block: it touches neither the call log nor the headers; it
    writes a response, except when it calls [pipe] on a plain value, whose
    error it lets escape. *)
Lemma proxyCatch_run (error : JsError) (st : St) :
  exists o st',
    proxyCatch error st = Some (o, st')
    /\ calls st' = calls st
    /\ setHeaders (res st') = setHeaders (res st)
    /\ match o with
       | Return _ => is_Some (payload (res st'))
       | Throw e' =>
           payload (res st') = payload (res st)
           /\ e' = engineError NotAFunction
           /\ exists r v, response error = Some r /\ data r = Value v
                          /\ truthy v = true /\ truthy (getField "pipe" v) = true
       end.
Proof.
  unfold proxyCatch. destruct (response error) as [r |] eqn:Hresp.
  - destruct (dataTruthy (data r)) eqn:Ht; simpl.
    + destruct (hasPipe (data r)) eqn:Hp.
      * destruct (data r) as [bytes | v] eqn:Hd.
        -- eexists; eexists. split; [reflexivity |]. simpl. eauto.
        -- simpl in Ht, Hp.
           assert (Hrun : pipe (Value v) = throw (engineError NotAFunction)).
           { destruct v; simpl in Ht; try discriminate; reflexivity. }
           unfold bind, res_status, updRes. rewrite Hrun.
           eexists; eexists. split; [reflexivity |]. simpl.
           split; [reflexivity |]. split; [reflexivity |].
           split; [reflexivity |]. split; [reflexivity |].
           exists r, v. auto.
      * eexists; eexists. split; [reflexivity |]. simpl. eauto.
    + eexists; eexists. split; [reflexivity |]. simpl. eauto.
  - eexists; eexists. split; [reflexivity |]. simpl. eauto.
Qed.

(** The path after a fetch that returned: the filtered headers are set and
    a response is written, also when [pipe] fails on a plain value. *)
Lemma proxyDeliver_run (isApi : bool) (r : AxiosResponse) (st : St) :
  exists st',
    tryCatch
      (res_set (sanitize (headers r)) ;;
       if isApi then res_json (data r) else pipe (data r))
      proxyCatch st
    = Some (Return tt, st')
    /\ calls st' = calls st
    /\ setHeaders (res st') = sanitize (headers r) ∪ setHeaders (res st)
    /\ is_Some (payload (res st')).
Proof.
  destruct isApi.
  - eexists. split; [reflexivity |]. simpl. eauto.
  - destruct (data r) as [bytes | v] eqn:Hd.
    + eexists. split; [reflexivity |].
      simpl. eauto.
    + assert (Hrun : exists k, pipe (Value v) = throw (engineError k)).
      { destruct v; eexists; reflexivity. }
      destruct Hrun as [k Hrun].
      eexists. split.
      { unfold tryCatch, bind, res_set, updRes. rewrite Hrun. reflexivity. }
      simpl. eauto.
Qed.

(** Every run of the route, in one statement: it ends; the requests it
    issued are repetitions of the one request for the decoded, validated
    target; the headers it set are the filtered headers of a response, or
    none; and it wrote a response unless the [catch] block let the error
    of [pipe] escape. *)
Lemma proxyRoute_run (encodedUrl : string) (accept : option string) :
  exists o st',
    proxyRoute encodedUrl accept initSt = Some (o, st')
    /\ (calls st' = []
        \/ exists targetUrl n,
             decodeURIComponent encodedUrl = Some targetUrl
             /\ isValidUrl URL env targetUrl = true
             /\ (n <= Z.to_nat (maxRetries config))%nat
             /\ calls st'
                = repeat (proxyRequest targetUrl (isApiRequest targetUrl accept) accept) (S n))
    /\ (setHeaders (res st') = ∅
        \/ exists r n req,
             network n req = Resolved r
             /\ setHeaders (res st') = sanitize (headers r))
    /\ match o with
       | Return _ => is_Some (payload (res st'))
       | Throw e' =>
           payload (res st') = None
           /\ e' = engineError NotAFunction
           /\ exists targetUrl n error r v,
                decodeURIComponent encodedUrl = Some targetUrl
                /\ network n (proxyRequest targetUrl (isApiRequest targetUrl accept) accept)
                   = Rejected error
                /\ response error = Some r /\ data r = Value v
                /\ truthy v = true /\ truthy (getField "pipe" v) = true
       end.
Proof.
  destruct (decodeURIComponent encodedUrl) as [targetUrl |] eqn:Hd.
  2: { unfold proxyRoute, tryCatch, proxyBody. rewrite Hd.
       eexists; eexists. split; [reflexivity |]. simpl. eauto. }
  destruct (isValidUrl URL env targetUrl) eqn:Hv.
  2: { unfold proxyRoute, tryCatch, proxyBody. rewrite Hd, Hv.
       eexists; eexists. split; [reflexivity |]. simpl. eauto. }
  set (req := proxyRequest targetUrl (isApiRequest targetUrl accept) accept).
  destruct (makeRequest_outcome enoughFuel req initSt) as [o [n [Hrun [Hle [_ Hlast]]]]].
  { unfold enoughFuel. simpl. rewrite Z.sub_0_r. lia. }
  simpl in Hle, Hlast. rewrite Z.sub_0_r in Hle.
  assert (Hcalls : calls (attempted initSt req (S n) n) = repeat req (S n)) by reflexivity.
  assert (Hhdr : setHeaders (res (attempted initSt req (S n) n)) = ∅) by reflexivity.
  assert (Hpay : payload (res (attempted initSt req (S n) n)) = None) by reflexivity.
  destruct o as [r | error].
  - destruct (proxyRoute_fetched _ _ _ _ _ Hd Hv Hrun) as [Heq _].
    destruct (proxyDeliver_run (isApiRequest targetUrl accept) r (attempted initSt req (S n) n))
      as [st' [Hrun' [Hc [Hh Hp]]]].
    exists (Return tt), st'. split; [rewrite Heq; exact Hrun' |].
    split; [right; exists targetUrl, n; rewrite Hc; auto |].
    split; [right; exists r, n, req; split;
              [exact Hlast | rewrite Hh, Hhdr; apply (right_id_L ∅ (∪))] |].
    exact Hp.
  - destruct (proxyRoute_faulted _ _ _ _ _ Hd Hv Hrun) as [Heq _].
    destruct (proxyCatch_run error (attempted initSt req (S n) n))
      as [o [st' [Hrun' [Hc [Hh Hp]]]]].
    exists o, st'. split; [rewrite Heq; exact Hrun' |].
    split; [right; exists targetUrl, n; rewrite Hc; auto |].
    split; [left; rewrite Hh; exact Hhdr |].
    destruct o as [u | e']; [exact Hp |].
    destruct Hp as [Hp1 [Hp2 [r [v Hp3]]]].
    split; [rewrite Hp1; exact Hpay |]. split; [exact Hp2 |].
    exists targetUrl, n, error, r, v. split; [reflexivity |].
    split; [apply Hlast | exact Hp3].
Qed.

(** X3. The route only ever issues requests for the target it decoded and
    validated: every request in its call log has as URL the decoded
    parameter, which [isValidUrl] accepts; and the log is never longer
    than [1 + max 0 maxRetries]. *)
Theorem proxy_requests_only_validated (encodedUrl : string) (accept : option string) :
  exists o st',
    proxyRoute encodedUrl accept initSt = Some (o, st')
    /\ (length (calls st') <= S (Z.to_nat (maxRetries config)))%nat
    /\ forall req, In req (calls st') ->
         exists targetUrl,
           decodeURIComponent encodedUrl = Some targetUrl
           /\ isValidUrl URL env targetUrl = true
           /\ url req = targetUrl.
Proof.
  destruct (proxyRoute_run encodedUrl accept) as [o [st' [Hrun [Hcalls _]]]].
  exists o, st'. split; [exact Hrun |].
  destruct Hcalls as [Hnil | [targetUrl [n [Hd [Hv [Hle Hc]]]]]].
  - rewrite Hnil. split; [simpl; lia | intros req []].
  - rewrite Hc. split; [rewrite repeat_length; lia |].
    intros req Hin. apply repeat_spec in Hin. subst req.
    exists targetUrl. auto.
Qed.

(** X4. Every run of the route ends, and ends with a response written,
    with one exception: when the error surfaced by the fetcher carries a
    body that is a plain value with a truthy [pipe] field, the [catch]
    block calls that field, and the resulting error leaves the route with
    no response written. *)
Theorem proxy_responds_or_pipe_escapes (encodedUrl : string) (accept : option string) :
  exists o st',
    proxyRoute encodedUrl accept initSt = Some (o, st')
    /\ match o with
       | Return _ => is_Some (payload (res st'))
       | Throw e' =>
           payload (res st') = None
           /\ e' = engineError NotAFunction
           /\ exists targetUrl n error r v,
                decodeURIComponent encodedUrl = Some targetUrl
                /\ network n (proxyRequest targetUrl (isApiRequest targetUrl accept) accept)
                   = Rejected error
                /\ response error = Some r /\ data r = Value v
                /\ truthy v = true /\ truthy (getField "pipe" v) = true
       end.
Proof.
  destruct (proxyRoute_run encodedUrl accept) as [o [st' [Hrun [_ [_ Hp]]]]].
  exists o, st'. split; assumption.
Qed.

(** X5. On a network that never rejects with a plain-value body having a
    truthy [pipe] field, every run of the route returns with exactly the
    one response written. *)
Theorem proxy_always_responds (encodedUrl : string) (accept : option string) :
  (forall n req error r v,
     network n req = Rejected error -> response error = Some r -> data r = Value v ->
     truthy v = true -> truthy (getField "pipe" v) = false) ->
  exists st',
    proxyRoute encodedUrl accept initSt = Some (Return tt, st')
    /\ is_Some (payload (res st')).
Proof.
  intros Hnet.
  destruct (proxyRoute_run encodedUrl accept) as [o [st' [Hrun [_ [_ Hp]]]]].
  destruct o as [[] | e'].
  - exists st'. split; assumption.
  - destruct Hp as [_ [_ [targetUrl [n [error [r [v [_ [Hn [Hr [Hd [Ht Hpipe]]]]]]]]]]]].
    rewrite (Hnet _ _ _ _ _ Hn Hr Hd Ht) in Hpipe. discriminate.
Qed.

(** X6. With a filter list written in lower case (as the default list is)
    and upstream header names in lower case (as Node delivers them), no
    upstream header whose name matches an entry of the filter list, in
    whatever letter case, is ever handed to the client response: after
    any run, no header set by the route is in the list up to case. *)
Theorem proxy_never_forwards_filtered (encodedUrl : string) (accept : option string) :
  (forall f, In f sensitiveHeaders -> lowerCased f) ->
  (forall n req r, network n req = Resolved r ->
     forall name value, headers r !! name = Some value -> lowerCased name) ->
  exists o st',
    proxyRoute encodedUrl accept initSt = Some (o, st')
    /\ forall name value, setHeaders (res st') !! name = Some value -> ~ inFilterList name.
Proof.
  intros Hlist Hnames.
  destruct (proxyRoute_run encodedUrl accept) as [o [st' [Hrun [_ [Hh _]]]]].
  exists o, st'. split; [exact Hrun |].
  intros name value Hset [f [Hin Heq]].
  destruct Hh as [Hempty | [r [n [req [Hnet Hsan]]]]].
  - rewrite Hempty, lookup_empty in Hset. discriminate.
  - rewrite Hsan, sanitize_lookup in Hset.
    destruct (JsString.array_includes sensitiveHeaders name) eqn:Hinc; [discriminate |].
    pose proof (Hnames n req r Hnet name value Hset) as Hlow.
    pose proof (Hlist f Hin) as Hflow.
    unfold lowerCased in *. rewrite Hflow, Hlow in Heq. subst f.
    apply array_includes_In in Hin. congruence.
Qed.

(** X7. When the fetcher throws, no upstream header is forwarded at all:
    the relayed status and body go out with no header set by the route. *)
Theorem fault_forwards_no_headers (encodedUrl targetUrl : string) (accept : option string)
        (error : JsError) (st1 : St) :
  decodeURIComponent encodedUrl = Some targetUrl ->
  isValidUrl URL env targetUrl = true ->
  makeRequest enoughFuel (proxyRequest targetUrl (isApiRequest targetUrl accept) accept) initSt
  = Some (Throw error, st1) ->
  exists o st',
    proxyRoute encodedUrl accept initSt = Some (o, st')
    /\ setHeaders (res st') = ∅.
Proof.
  intros Hd Hv Hrun.
  destruct (proxyRoute_faulted _ _ _ _ _ Hd Hv Hrun) as [Heq Hres].
  destruct (proxyCatch_run error st1) as [o [st' [Hrun' [_ [Hh _]]]]].
  exists o, st'. split; [rewrite Heq; exact Hrun' |].
  rewrite Hh, Hres. reflexivity.
Qed.

(** X8. A parameter that [decodeURIComponent] rejects is answered with
    status 500 and the message of the [URIError], not with 400, and no
    request is issued. *)
Theorem malformed_escape_is_500 (encodedUrl : string) (accept : option string) :
  decodeURIComponent encodedUrl = None ->
  exists st',
    proxyRoute encodedUrl accept initSt = Some (Return tt, st')
    /\ statusCode (res st') = 500
    /\ payload (res st')
       = Some (Sent (Value (JStr ("请求失败: " ++ engineMessage URIMalformed))))
    /\ calls st' = [].
Proof.
  intros Hd. unfold proxyRoute, tryCatch, proxyBody. rewrite Hd.
  eexists. split; [reflexivity |]. simpl. auto.
Qed.

(** ** The response mode *)

Lemma includes_spec (s p : string) :
  JsString.includes s p = true <-> exists a b, s = a ++ p ++ b.
Proof.
  split.
  - induction s as [| c s IH]; simpl.
    + destruct (JsString.startsWith "" p) eqn:E; [| discriminate].
      intros _. apply startsWith_spec in E. destruct E as [rest E].
      exists "", rest. exact E.
    + destruct (JsString.startsWith (String c s) p) eqn:E.
      * intros _. apply startsWith_spec in E. destruct E as [rest E].
        exists "", rest. exact E.
      * intros H. destruct (IH H) as [a [b Hab]].
        exists (String c a), b. rewrite append_cons. congruence.
  - intros [a [b Hab]]. revert s Hab. induction a as [| c a IH]; intros s Hab.
    + assert (E : JsString.startsWith s p = true) by (apply startsWith_spec; exists b; exact Hab).
      destruct s; simpl; rewrite E; reflexivity.
    + rewrite append_cons in Hab. subst s. simpl.
      destruct (JsString.startsWith (String c (a ++ p ++ b)) p); [reflexivity |].
      apply IH. reflexivity.
Qed.

(** X9. The request goes out in json mode exactly when the target
    contains the text [/api.php/provide/vod] somewhere (be it in its query
    string) or the caller's [Accept] header contains [application/json];
    in every other case it goes out in stream mode. *)
Theorem json_mode_iff (targetUrl : string) (accept : option string) :
  let req := proxyRequest targetUrl (isApiRequest targetUrl accept) accept in
  (responseType req = RJson <->
     (exists a b, targetUrl = a ++ "/api.php/provide/vod" ++ b)
     \/ (exists header a b, accept = Some header /\ header = a ++ "application/json" ++ b))
  /\ (responseType req = RJson \/ responseType req = RStream).
Proof.
  simpl. split.
  - unfold isApiRequest.
    destruct (JsString.includes targetUrl "/api.php/provide/vod") eqn:Hm; simpl.
    + split; [| reflexivity]. intros _. left. apply includes_spec. exact Hm.
    + assert (Hno : ~ exists a b, targetUrl = a ++ "/api.php/provide/vod" ++ b).
      { intros H. apply includes_spec in H. congruence. }
      destruct accept as [header |].
      * destruct (JsString.includes header "application/json") eqn:Hj.
        -- split; [| reflexivity]. intros _. right.
           apply includes_spec in Hj. destruct Hj as [a [b Hab]].
           exists header, a, b. auto.
        -- split; [discriminate |].
           intros [H | [h [a [b [Hs Hab]]]]]; [contradiction |].
           injection Hs as <-.
           assert (JsString.includes header "application/json" = true)
             by (apply includes_spec; exists a, b; exact Hab).
           congruence.
      * split; [discriminate |].
        intros [H | [h [a [b [Hs _]]]]]; [contradiction | discriminate].
  - destruct (isApiRequest targetUrl accept); auto.
Qed.

(** ** [encodeURIComponent] *)

Lemma hexDigit_unreserved (n : N) : uriUnreserved (hexDigit n) = true.
Proof.
  unfold hexDigit. generalize (N.to_nat n). intros k.
  do 16 (destruct k as [| k]; [reflexivity |]).
  reflexivity.
Qed.

Lemma occurs_append (c : ascii) (a b : string) :
  occurs c (a ++ b) = occurs c a || occurs c b.
Proof.
  induction a as [| d a IH]; [reflexivity |].
  rewrite append_cons. simpl. rewrite IH. apply orb_assoc.
Qed.

Lemma encodeURIComponent_chars (s : string) (c : ascii) :
  occurs c (encodeURIComponent s) = true -> uriUnreserved c = true \/ c = "%"%char.
Proof.
  induction s as [| d s IH]; simpl; [discriminate |].
  destruct (uriUnreserved d) eqn:Hd; simpl.
  - destruct (Ascii.eqb_spec c d) as [-> | Hne]; simpl; auto.
  - destruct (Ascii.eqb_spec c "%"%char) as [-> | Hne]; simpl; [auto |].
    destruct (Ascii.eqb_spec c (hexDigit (N_of_ascii d / 16))) as [-> | Hne1]; simpl.
    { intros _. left. apply hexDigit_unreserved. }
    destruct (Ascii.eqb_spec c (hexDigit (N_of_ascii d mod 16))) as [-> | Hne2]; simpl.
    { intros _. left. apply hexDigit_unreserved. }
    exact IH.
Qed.

Lemma encodeURIComponent_none (s : string) (c : ascii) :
  uriUnreserved c = false -> c <> "%"%char -> occurs c (encodeURIComponent s) = false.
Proof.
  intros Hu Hp. destruct (occurs c (encodeURIComponent s)) eqn:E; [| reflexivity].
  destruct (encodeURIComponent_chars s c E) as [H | H]; congruence.
Qed.

Lemma encodeURIComponent_unreserved (s : string) :
  allUnreserved s = true -> encodeURIComponent s = s.
Proof.
  induction s as [| c s IH]; simpl; [reflexivity |].
  intros H. apply andb_true_iff in H. destruct H as [Hc Hs].
  rewrite Hc, (IH Hs). reflexivity.
Qed.

(** X10. The text that [encodeURIComponent] gives is made of unreserved
    characters and percent signs only: a character outside these, such as
    [/ ? # & = :], never occurs in it, so an encoded keyword cannot add a
    parameter or a path segment to the composed URL; and a text made of
    unreserved characters is given back as it is. *)
Theorem encodeURIComponent_escapes (s : string) (c : ascii) :
  (uriUnreserved c = false -> c <> "%"%char -> occurs c (encodeURIComponent s) = false)
  /\ (occurs c (encodeURIComponent s) = true -> uriUnreserved c = true \/ c = "%"%char)
  /\ (allUnreserved s = true -> encodeURIComponent s = s).
Proof.
  split; [apply encodeURIComponent_none |].
  split; [apply encodeURIComponent_chars | apply encodeURIComponent_unreserved].
Qed.

(** ** The aggregation routes under any network *)

(** X11. For an id made of unreserved characters only (letters, digits,
    [- _ . ! ~ * ' ( )]), the URL that the detail route composes is the
    base it resolves, the path template and the URL-encoded id: on such
    ids the raw and the encoded form are the same text. *)
Theorem detail_plain_id_encoded (q : Query) :
  allUnreserved (orEmpty (id q)) = true ->
  detailApiUrl q
  = (fun base => base ++ detailPath API_CONFIG ++ encodeURIComponent (orEmpty (id q)))
      <$> resolveBase q.
Proof.
  intros H. rewrite (encodeURIComponent_unreserved _ H). apply detailApiUrl_composed.
Qed.

(** An aggregation route whatever its URL computation gave. *)
Lemma aggregate_total (apiUrl : option string) (hdrs : list (string * string)) (msg : string) :
  exists st',
    tryCatch
      (match apiUrl with
       | None => throw (engineError NoSuchProperty)
       | Some apiUrl =>
           response <- axios (selfRequest apiUrl hdrs) ;;
           res_json (data response)
       end)
      (fun error => res_status 500 ;; res_json (envelope msg error)) initSt
    = Some (Return tt, st')
    /\ (statusCode (res st') = 200 \/ statusCode (res st') = 500)
    /\ (exists doc, payload (res st') = Some (SentJson doc))
    /\ match apiUrl with
       | None =>
           calls st' = []
           /\ statusCode (res st') = 500
           /\ payload (res st') = Some (SentJson (envelope msg (engineError NoSuchProperty)))
       | Some apiUrl => calls st' = [selfRequest apiUrl hdrs]
       end.
Proof.
  destruct apiUrl as [apiUrl |].
  - rewrite aggregate_run. eexists. split; [reflexivity |]. simpl.
    destruct (network 0 (selfRequest apiUrl hdrs)); simpl; eauto.
  - eexists. split; [reflexivity |]. simpl. eauto 10.
Qed.

(** X12. Both aggregation routes always answer, and always with a JSON
    document under status 200 or 500; they issue at most one request, and
    its URL is [http://localhost:<port>/proxy/] followed by one path
    segment, that is by a text without [/], [?] or [#]. *)
Theorem aggregation_always_answers (q : Query) :
  let answered (run : option (Outcome unit * St)) :=
    exists st',
      run = Some (Return tt, st')
      /\ (statusCode (res st') = 200 \/ statusCode (res st') = 500)
      /\ (exists doc, payload (res st') = Some (SentJson doc))
      /\ (length (calls st') <= 1)%nat
      /\ forall req, In req (calls st') ->
           exists segment,
             url req = "http://localhost:" ++ port config ++ "/proxy/" ++ segment
             /\ occurs "/" segment = false
             /\ occurs "?" segment = false
             /\ occurs "#" segment = false in
  answered (searchRoute q initSt) /\ answered (detailRoute q initSt).
Proof.
  assert (Hseg : forall apiUrl hdrs req, In req [selfRequest apiUrl hdrs] ->
            exists segment,
              url req = "http://localhost:" ++ port config ++ "/proxy/" ++ segment
              /\ occurs "/" segment = false
              /\ occurs "?" segment = false
              /\ occurs "#" segment = false).
  { intros apiUrl hdrs req [<- | []]. exists (encodeURIComponent apiUrl).
    split; [reflexivity |].
    repeat split; (apply encodeURIComponent_none; [reflexivity | discriminate]). }
  simpl. split.
  - unfold searchRoute.
    destruct (aggregate_total (searchApiUrl q) (searchHeaders API_CONFIG) "API聚合失败")
      as [st' [Hrun [Hst [Hdoc Hc]]]].
    exists st'. split; [exact Hrun |]. split; [exact Hst |]. split; [exact Hdoc |].
    destruct (searchApiUrl q) as [apiUrl |].
    + rewrite Hc. split; [simpl; lia | apply Hseg].
    + destruct Hc as [-> _]. split; [simpl; lia | intros req []].
  - unfold detailRoute.
    destruct (aggregate_total (detailApiUrl q) (detailHeaders API_CONFIG) "详情API失败")
      as [st' [Hrun [Hst [Hdoc Hc]]]].
    exists st'. split; [exact Hrun |]. split; [exact Hst |]. split; [exact Hdoc |].
    destruct (detailApiUrl q) as [apiUrl |].
    + rewrite Hc. split; [simpl; lia | apply Hseg].
    + destruct Hc as [-> _]. split; [simpl; lia | intros req []].
Qed.

(** X13. When no base can be resolved ([customApi] absent or empty;
    [source] absent, empty, or naming neither an own entry of the registry
    nor a property it inherits; and no own entry [heimuer]), both routes
    answer with status 500 and the envelope carrying the message of the
    [TypeError], and issue no request. *)
Theorem unresolved_base_envelope (q : Query) :
  whenTruthy (customApi q) = None ->
  (forall name, whenTruthy (source q) = Some name -> readSite name = Undefined) ->
  API_SITES !! "heimuer" = None ->
  let failed500 (run : option (Outcome unit * St)) (msg : string) :=
    exists st',
      run = Some (Return tt, st')
      /\ statusCode (res st') = 500
      /\ payload (res st')
         = Some (SentJson (Value (JObject [("code", JNum 500);
                                           ("msg", JStr msg);
                                           ("error", JStr (engineMessage NoSuchProperty))])))
      /\ calls st' = [] in
  failed500 (searchRoute q initSt) "API聚合失败"
  /\ failed500 (detailRoute q initSt) "详情API失败".
Proof.
  intros Hcustom Hsource Hdefault.
  assert (Hbase : resolveBase q = None).
  { unfold resolveBase. rewrite Hcustom, Hdefault.
    destruct (whenTruthy (source q)) as [name |]; [| reflexivity].
    simpl. rewrite (Hsource name eq_refl). reflexivity. }
  simpl. split.
  - unfold searchRoute. rewrite searchApiUrl_composed, Hbase. simpl.
    eexists. split; [reflexivity |]. simpl. auto.
  - unfold detailRoute. rewrite detailApiUrl_composed, Hbase. simpl.
    eexists. split; [reflexivity |]. simpl. auto.
Qed.

(** X24. A [source] that names a property the registry only inherits from
    [Object.prototype] (such as [constructor] or [toString]) passes the
    test [source && API_SITES[source]] although it is no site: with no
    [customApi], both routes then compose their URL on the base text
    [undefined], whatever the registry holds. *)
Theorem inherited_source_undefined_base (q : Query) (name : string) :
  whenTruthy (customApi q) = None ->
  source q = Some name ->
  In name inheritedNames ->
  API_SITES !! name = None ->
  resolveBase q = Some "undefined"
  /\ searchApiUrl q
     = Some ("undefined" ++ searchPath API_CONFIG ++ encodeURIComponent (orEmpty (wd q)))
  /\ detailApiUrl q = Some ("undefined" ++ detailPath API_CONFIG ++ orEmpty (id q)).
Proof.
  intros Hcustom Hsource Hin Hown.
  assert (Htruthy : whenTruthy (source q) = Some name).
  { rewrite Hsource. unfold whenTruthy.
    destruct name as [| c name]; [| reflexivity].
    simpl in Hin.
    repeat (destruct Hin as [Hin | Hin]; [discriminate Hin |]). contradiction. }
  assert (Hread : readSite name = Inherited).
  { unfold readSite. rewrite Hown.
    apply array_includes_In in Hin. rewrite Hin. reflexivity. }
  assert (Hbase : resolveBase q = Some "undefined").
  { unfold resolveBase. rewrite Hcustom, Htruthy. simpl. rewrite Hread. reflexivity. }
  split; [exact Hbase |].
  rewrite searchApiUrl_composed, detailApiUrl_composed, Hbase. split; reflexivity.
Qed.

(** ** The configured lists *)

Lemma append_nil_l (s : string) : "" ++ s = s.
Proof. reflexivity. Qed.

Lemma append_assoc (a b c : string) : (a ++ b) ++ c = a ++ (b ++ c).
Proof.
  induction a as [| x a IH]; [reflexivity |].
  rewrite !append_cons, IH. reflexivity.
Qed.

Lemma split_go_nonempty (sep : ascii) (s acc : string) : JsString.split_go sep s acc <> [].
Proof.
  revert acc. induction s as [| c s IH]; intros acc; simpl; [discriminate |].
  destruct (Ascii.eqb c sep); [discriminate | apply IH].
Qed.

Lemma concat_cons (sep x : string) (l : list string) :
  l <> [] -> String.concat sep (x :: l) = x ++ sep ++ String.concat sep l.
Proof. destruct l; [congruence | reflexivity]. Qed.

Lemma split_go_concat (sep : ascii) (s acc : string) :
  String.concat (String sep "") (JsString.split_go sep s acc) = acc ++ s.
Proof.
  revert acc. induction s as [| c s IH]; intros acc; simpl.
  - symmetry. apply append_empty.
  - destruct (Ascii.eqb_spec c sep) as [-> | Hne].
    + rewrite concat_cons by apply split_go_nonempty.
      rewrite IH, append_nil_l. reflexivity.
    + rewrite IH, append_assoc. reflexivity.
Qed.

Lemma split_go_pieces (sep : ascii) (s acc : string) :
  occurs sep acc = false ->
  forall piece, In piece (JsString.split_go sep s acc) -> occurs sep piece = false.
Proof.
  revert acc. induction s as [| c s IH]; intros acc Hacc piece; simpl.
  - intros [<- | []]. exact Hacc.
  - destruct (Ascii.eqb_spec c sep) as [-> | Hne].
    + intros [<- | Hin]; [exact Hacc | apply (IH "" eq_refl piece Hin)].
    + apply IH. rewrite occurs_append, Hacc. simpl.
      destruct (Ascii.eqb_spec sep c); [congruence | reflexivity].
Qed.

(** X14. A configured list is cut exactly at its commas: joining the
    entries with commas gives the configured text back (nothing is trimmed
    or dropped, empty entries included), no entry contains a comma, and
    there is always at least one entry. *)
Theorem split_join (s : string) :
  String.concat "," (JsString.split "," s) = s
  /\ (forall piece, In piece (JsString.split "," s) -> occurs "," piece = false)
  /\ JsString.split "," s <> [].
Proof.
  unfold JsString.split. split; [apply split_go_concat |].
  split; [apply split_go_pieces; reflexivity | apply split_go_nonempty].
Qed.

Lemma split_go_trailing (sep : ascii) (s acc : string) :
  In "" (JsString.split_go sep (s ++ String sep "") acc).
Proof.
  revert acc. induction s as [| c s IH]; intros acc.
  - rewrite append_nil_l. simpl. rewrite Ascii.eqb_refl. simpl. auto.
  - rewrite append_cons. simpl. destruct (Ascii.eqb c sep); [right |]; apply IH.
Qed.

Lemma append_truthy (a b : string) : JsString.truthy b = true -> JsString.truthy (a ++ b) = true.
Proof. destruct a; [rewrite append_nil_l; auto | reflexivity]. Qed.

(** X15. A trailing comma in [BLOCKED_IP_PREFIXES] gives the prefix list
    an empty entry, which every hostname starts with: the validator then
    rejects every URL. *)
Theorem trailing_comma_blocks_all (prefixes : string) (urlString : string) :
  env !! "BLOCKED_IP_PREFIXES" = Some (prefixes ++ ",") ->
  In "" (blockedPrefixes env) /\ isValidUrl URL env urlString = false.
Proof.
  intros Henv.
  assert (Hin : In "" (blockedPrefixes env)).
  { unfold blockedPrefixes, env_or. rewrite Henv, append_truthy by reflexivity.
    apply split_go_trailing. }
  split; [exact Hin |].
  unfold isValidUrl. destruct (URL urlString) as [parsed |]; [| reflexivity].
  destruct (negb _); [reflexivity |].
  destruct (JsString.array_includes _ _); [reflexivity |].
  assert (Hb : prefixBlocked (hostname parsed) (blockedPrefixes env) = true).
  { apply prefixBlocked_spec. exists "". split; [exact Hin | reflexivity]. }
  rewrite Hb. reflexivity.
Qed.

(** ** The header filter as a map operation *)

(** X16. The filter only removes: every header of its output is a header
    of its input with the same value; and filtering twice changes nothing
    more. *)
Theorem sanitize_restricts (h : gmap string string) :
  sanitize h ⊆ h /\ sanitize (sanitize h) = sanitize h.
Proof.
  split.
  - apply map_subseteq_spec. intros k v. rewrite sanitize_lookup.
    destruct (JsString.array_includes sensitiveHeaders k); [discriminate | auto].
  - apply map_eq. intros k. rewrite !sanitize_lookup.
    destruct (JsString.array_includes sensitiveHeaders k); reflexivity.
Qed.

(** ** The rewriting of the proxy path *)

Lemma stripPrefix_spec (p s rest : string) :
  JsReplace.stripPrefix p s = Some rest -> s = p ++ rest.
Proof.
  revert s. induction p as [| c p IH]; intros s; simpl.
  - intros H. injection H as <-. reflexivity.
  - destruct s as [| d s]; [discriminate |].
    destruct (Ascii.eqb_spec c d) as [<- | Hne]; [| discriminate].
    intros H. rewrite append_cons, (IH s H). reflexivity.
Qed.

Lemma stripPrefix_append (p rest : string) : JsReplace.stripPrefix p (p ++ rest) = Some rest.
Proof.
  induction p as [| c p IH]; [reflexivity |].
  rewrite append_cons. simpl. rewrite Ascii.eqb_refl. exact IH.
Qed.

Lemma schemeSlashAt_colon (s scheme rest : string) :
  JsReplace.schemeSlashAt s = Some (scheme, rest) -> occurs ":" s = true.
Proof.
  unfold JsReplace.schemeSlashAt.
  destruct (JsReplace.stripPrefix "https:/" s) as [r |] eqn:Hs.
  - intros _. apply stripPrefix_spec in Hs. subst s.
    rewrite occurs_append. reflexivity.
  - destruct (JsReplace.stripPrefix "http:/" s) as [r |] eqn:Hp; [| discriminate].
    intros _. apply stripPrefix_spec in Hp. subst s.
    rewrite occurs_append. reflexivity.
Qed.

Lemma repairScheme_no_colon (s : string) :
  occurs ":" s = false -> JsReplace.repairScheme s = s.
Proof.
  induction s as [| c s IH]; intros Hc.
  - reflexivity.
  - assert (Hnone : JsReplace.schemeSlashAt (String c s) = None).
    { destruct (JsReplace.schemeSlashAt (String c s)) as [[scheme rest] |] eqn:E; [| reflexivity].
      apply schemeSlashAt_colon in E. congruence. }
    change (JsReplace.repairScheme (String c s))
      with (match JsReplace.schemeSlashAt (String c s) with
            | Some (scheme, rest) => scheme ++ "//" ++ rest
            | None => String c (JsReplace.repairScheme s)
            end).
    rewrite Hnone, IH; [reflexivity |].
    simpl in Hc. apply orb_false_iff in Hc. apply Hc.
Qed.

Lemma repairScheme_head (s scheme rest : string) :
  JsReplace.schemeSlashAt s = Some (scheme, rest) ->
  JsReplace.repairScheme s = scheme ++ "//" ++ rest.
Proof.
  intros H. destruct s as [| c s]; [discriminate H |].
  change (JsReplace.repairScheme (String c s))
    with (match JsReplace.schemeSlashAt (String c s) with
          | Some (scheme, rest) => scheme ++ "//" ++ rest
          | None => String c (JsReplace.repairScheme s)
          end).
  rewrite H. reflexivity.
Qed.

(** X17. A target whose [//] after the scheme was collapsed to one slash
    on the way (by a reverse proxy) gets it back: for [http:] and
    [https:], a target that starts with the scheme, one slash and a
    character other than a slash is rewritten to the scheme, two slashes
    and the same remainder, and that text is what the route receives
    encoded. *)
Theorem collapsed_slash_repaired (scheme : string) (c : ascii) (rest : string) :
  scheme = "http:" \/ scheme = "https:" ->
  c <> "/"%char ->
  JsReplace.repairScheme (scheme ++ "/" ++ String c rest) = scheme ++ "//" ++ String c rest
  /\ proxyRewrite ("/" ++ scheme ++ "/" ++ String c rest)
     = "/" ++ encodeURIComponent (scheme ++ "//" ++ String c rest).
Proof.
  intros Hs Hc.
  assert (Hrep : JsReplace.repairScheme (scheme ++ "/" ++ String c rest)
                 = scheme ++ "//" ++ String c rest).
  { destruct Hs as [-> | ->]; apply repairScheme_head.
    - change ("http:" ++ "/" ++ String c rest)
        with (String "h" (String "t" (String "t" (String "p" (String ":"
               (String "/" (String c rest))))))).
      unfold JsReplace.schemeSlashAt. simpl.
      destruct (Ascii.eqb_spec c "/"); [contradiction | reflexivity].
    - change ("https:" ++ "/" ++ String c rest)
        with (String "h" (String "t" (String "t" (String "p" (String "s" (String ":"
               (String "/" (String c rest)))))))).
      unfold JsReplace.schemeSlashAt. simpl.
      destruct (Ascii.eqb_spec c "/"); [contradiction | reflexivity]. }
  split; [exact Hrep |].
  unfold proxyRewrite.
  change (JsReplace.dropLeadingSlash ("/" ++ scheme ++ "/" ++ String c rest))
    with (scheme ++ "/" ++ String c rest).
  rewrite Hrep. reflexivity.
Qed.

(** X18. Whatever URL the middleware is given, the one it puts in its
    place is a slash followed by a single path segment (a text without
    [/], [?] or [#]): the route's one parameter receives the whole
    remainder of the request URL, its query string included. *)
Theorem proxyRewrite_one_segment (url : string) :
  exists segment,
    proxyRewrite url = String "/" segment
    /\ occurs "/" segment = false
    /\ occurs "?" segment = false
    /\ occurs "#" segment = false.
Proof.
  eexists. split; [reflexivity |].
  repeat split; (apply encodeURIComponent_none; [reflexivity | discriminate]).
Qed.

(** X19. A target that arrives URL-encoded (as the aggregation routes send
    it) is not touched by the slash repair: the rewritten URL is the
    encoded target, encoded once more. *)
Theorem encoded_target_untouched (target : string) :
  proxyRewrite ("/" ++ encodeURIComponent target)
  = "/" ++ encodeURIComponent (encodeURIComponent target).
Proof.
  unfold proxyRewrite.
  change (JsReplace.dropLeadingSlash ("/" ++ encodeURIComponent target))
    with (encodeURIComponent target).
  rewrite repairScheme_no_colon; [reflexivity |].
  apply encodeURIComponent_none; [reflexivity | discriminate].
Qed.

(** ** The page routes *)

Lemma getSubstitution_plain (matched before after replacement : string) :
  dollarFree replacement ->
  JsReplace.getSubstitution matched before after replacement = replacement.
Proof.
  unfold dollarFree. induction replacement as [| c r IH]; intros H; [reflexivity |].
  simpl in H. apply orb_false_iff in H. destruct H as [Hc Hr].
  specialize (IH Hr).
  destruct c as [[] [] [] [] [] [] [] []]; try discriminate Hc;
    simpl; rewrite IH; reflexivity.
Qed.

Lemma length_append (a b : string) :
  String.length (a ++ b) = (String.length a + String.length b)%nat.
Proof.
  induction a as [| c a IH]; [reflexivity |].
  rewrite append_cons. simpl. rewrite IH. reflexivity.
Qed.

Lemma startsWith_append (p x y : string) :
  (String.length p <= String.length x)%nat ->
  JsString.startsWith (x ++ y) p = JsString.startsWith x p.
Proof.
  revert x. induction p as [| c p IH]; intros x Hlen; [reflexivity |].
  destruct x as [| d x]; [simpl in Hlen; lia |].
  rewrite append_cons. simpl. destruct (Ascii.eqb c d); [| reflexivity].
  apply IH. simpl in Hlen. lia.
Qed.

Lemma stripPrefix_startsWith (p s : string) :
  JsString.startsWith s p = false -> JsReplace.stripPrefix p s = None.
Proof.
  revert s. induction p as [| c p IH]; intros s; simpl; [discriminate |].
  destruct s as [| d s]; [reflexivity |].
  destruct (Ascii.eqb c d); [apply IH | reflexivity].
Qed.

Lemma splitAtFirst_eq (s p : string) :
  JsReplace.splitAtFirst s p
  = match JsReplace.stripPrefix p s with
    | Some after => Some ("", after)
    | None =>
        match s with
        | EmptyString => None
        | String c s' =>
            match JsReplace.splitAtFirst s' p with
            | Some (before, after) => Some (String c before, after)
            | None => None
            end
        end
    end.
Proof. destruct s; reflexivity. Qed.

Lemma includes_eq (s p : string) :
  JsString.includes s p
  = if JsString.startsWith s p then true
    else match s with
         | EmptyString => false
         | String _ s' => JsString.includes s' p
         end.
Proof. destruct s; reflexivity. Qed.

(** The occurrence of [p] after [before] is the first one when [p] does
    not occur in [before] followed by all of [p] but its last character. *)
Lemma splitAtFirst_first (before p0 after : string) (l : ascii) :
  JsString.includes (before ++ p0) (p0 ++ String l "") = false ->
  JsReplace.splitAtFirst (before ++ (p0 ++ String l "") ++ after) (p0 ++ String l "")
  = Some (before, after).
Proof.
  induction before as [| d before IH]; intros H.
  - rewrite append_nil_l, splitAtFirst_eq, stripPrefix_append. reflexivity.
  - rewrite append_cons in H. rewrite includes_eq in H.
    destruct (JsString.startsWith (String d (before ++ p0)) (p0 ++ String l "")) eqn:Hs;
      [discriminate |].
    rewrite append_cons, splitAtFirst_eq.
    assert (Hnone : JsReplace.stripPrefix (p0 ++ String l "")
                      (String d (before ++ (p0 ++ String l "") ++ after)) = None).
    { apply stripPrefix_startsWith.
      replace (String d (before ++ (p0 ++ String l "") ++ after))
        with (String d (before ++ p0) ++ (String l "" ++ after)).
      - rewrite startsWith_append; [exact Hs |].
        simpl. rewrite !length_append. simpl. lia.
      - rewrite append_cons. f_equal. rewrite !append_assoc. reflexivity. }
    rewrite Hnone, (IH H). reflexivity.
Qed.

(** X20. With neither password configured, a page file that can be read is
    served as it is, its placeholders included, under status 200. *)
Theorem page_served_verbatim (path content : string) :
  password = "" ->
  adminpassword = "" ->
  readFileSync (pageFile path) = FileText content ->
  exists st',
    pageRoute path initSt = Some (Return tt, st')
    /\ statusCode (res st') = 200
    /\ payload (res st') = Some (Sent (Value (JStr content))).
Proof.
  intros Hp Ha Hf. unfold pageRoute, tryCatch, bind, renderPage.
  rewrite Hf, Hp, Ha. simpl. eexists. split; [reflexivity |]. simpl. auto.
Qed.

(** X21. When the page file cannot be read, both page routes answer with
    status 500 and a fixed message, whatever the error and the passwords
    are; the message of the error is not passed on. *)
Theorem page_read_failure (path : string) (error : JsError) :
  (readFileSync (pageFile path) = FileError error ->
   exists st',
     pageRoute path initSt = Some (Return tt, st')
     /\ statusCode (res st') = 500
     /\ payload (res st') = Some (Sent (Value (JStr "读取静态页面失败"))))
  /\ (readFileSync "index.html" = FileError error ->
      exists st',
        searchPageRoute initSt = Some (Return tt, st')
        /\ statusCode (res st') = 500
        /\ payload (res st') = Some (Sent (Value (JStr "读取静态页面失败")))).
Proof.
  split; intros Hf.
  - unfold pageRoute, tryCatch, bind, renderPage. rewrite Hf.
    eexists. split; [reflexivity |]. simpl. auto.
  - unfold searchPageRoute, tryCatch, bind, renderPage. rewrite Hf.
    eexists. split; [reflexivity |]. simpl. auto.
Qed.

(** X22. With a user password and no admin password, the first
    [{{PASSWORD}}] of the page is replaced by the digest of the password,
    given as hexadecimal digits; the text before and after it, further
    placeholders included, is served unchanged. The digest has no dollar
    sign; [before] is the text up to the first placeholder. *)
Theorem password_digest_inserted (path before after : string) :
  password <> "" ->
  adminpassword = "" ->
  dollarFree (sha256Hex password) ->
  JsString.includes (before ++ "{{PASSWORD}") "{{PASSWORD}}" = false ->
  readFileSync (pageFile path) = FileText (before ++ "{{PASSWORD}}" ++ after) ->
  exists st',
    pageRoute path initSt = Some (Return tt, st')
    /\ statusCode (res st') = 200
    /\ payload (res st') = Some (Sent (Value (JStr (before ++ sha256Hex password ++ after)))).
Proof.
  intros Hp Ha Hdollar Hfresh Hf.
  unfold pageRoute, tryCatch, bind, renderPage. rewrite Hf, Ha.
  assert (Ht : JsString.truthy password = true) by (destruct password; [congruence | reflexivity]).
  rewrite Ht. unfold JsReplace.replace.
  pose proof (splitAtFirst_first before "{{PASSWORD}" after "}" Hfresh) as Hsplit.
  change ("{{PASSWORD}" ++ "}") with "{{PASSWORD}}" in Hsplit.
  rewrite Hsplit.
  rewrite (getSubstitution_plain _ _ _ _ Hdollar).
  simpl. eexists. split; [reflexivity |]. simpl. auto.
Qed.

End Server.

(** * The properties on the concrete platform *)

Import Sample.

Local Abbreviation proxy network env target :=
  (proxyRoute URL decodeURIComponent engineMessage network env config
     (encodeURIComponent target) None initSt).

Local Abbreviation fetch network target isApi :=
  (makeRequest network config (enoughFuel config)
     (proxyRequest config target isApi None) initSt).

Lemma scripted_nil (dflt : AxiosResult) (n : nat) (req : AxiosRequest) :
  scripted [] dflt n req = dflt.
Proof. unfold scripted. destruct n; reflexivity. Qed.

(** C1 on the concrete platform: the loopback address is rejected, a public
    http URL is accepted. *)
Lemma isValidUrl_false_iff_witness :
  isValidUrl URL ∅ loopbackUrl = false /\ isValidUrl URL ∅ videoUrl = true.
Proof.
  split.
  - apply (proj1 (isValidUrl_false_iff URL ∅ loopbackUrl)).
    right. exists {| protocol := "http:"; hostname := "127.0.0.1" |}.
    split; [reflexivity |]. right. left. vm_compute. auto.
  - apply (proj2 (isValidUrl_false_iff URL ∅ videoUrl)
                 {| protocol := "http:"; hostname := "example.com" |}).
    + reflexivity.
    + simpl. auto.
    + intros [Hin | [p [rest [Hin Heq]]]].
      * vm_compute in Hin. intuition discriminate.
      * vm_compute in Hin. destruct Hin as [<- | [<- | [<- | []]]]; discriminate Heq.
Defined.

(** C2 with [maxRetries = 2]: three requests to a network that is down, and
    three to one that answers at the third attempt. *)
Lemma makeRequest_attempts_witness :
  (exists e st',
     fetch down listingUrl true = Some (Throw e, st')
     /\ length (calls st') = 3%nat)
  /\ (exists st',
        fetch flaky listingUrl true = Some (Return listing, st')
        /\ length (calls st') = 3%nat).
Proof.
  pose proof (makeRequest_attempts down config (proxyRequest config listingUrl true None) initSt
                ltac:(vm_compute; discriminate) eq_refl) as Hdown.
  pose proof (makeRequest_attempts flaky config (proxyRequest config listingUrl true None) initSt
                ltac:(vm_compute; discriminate) eq_refl) as Hflaky.
  split.
  - destruct (proj1 Hdown) as [e [st' [_ [Hrun [Hcalls _]]]]].
    + intros k _. eexists. unfold attempt, down. apply scripted_nil.
    + exists e, st'. split; [exact Hrun |]. rewrite Hcalls. reflexivity.
  - destruct (proj2 Hflaky 3%nat listing) as [st' [Hrun Hcalls]].
    + vm_compute. split; repeat constructor.
    + intros i Hi. assert (i = 1 \/ i = 2)%nat as [-> | ->] by lia; eexists; reflexivity.
    + reflexivity.
    + exists st'. split; [exact Hrun |]. rewrite Hcalls. reflexivity.
Defined.

(** C5, amended, under the default filter list. *)
Lemma sanitize_exact_names_witness :
  sanitize ∅ (headers video) !! "set-cookie" = None
  /\ sanitize ∅ (headers video) !! "content-type" = Some "video/mp4".
Proof.
  destruct (sanitize_exact_names ∅ (headers video) "set-cookie") as [Hrm _].
  destruct (sanitize_exact_names ∅ (headers video) "content-type") as [_ [Hkeep _]].
  split.
  - apply Hrm. vm_compute. auto 10.
  - rewrite Hkeep; [reflexivity |].
    vm_compute. intuition discriminate.
Defined.

(** C5, counterexample. With [FILTERED_HEADERS=Set-Cookie], the header
    [set-cookie] is in the filter list up to case, and the filter leaves
    it in place. *)
Lemma sanitize_mixed_case_kept :
  inFilterList mixedCaseEnv "set-cookie"
  /\ sanitize mixedCaseEnv (headers video) !! "set-cookie" = Some "sid=1".
Proof.
  split.
  - exists "Set-Cookie". split; [vm_compute; auto | reflexivity].
  - reflexivity.
Qed.

(** C3, amended, on the video scenario. *)
Lemma stream_success_response_witness :
  exists st',
    proxy streaming ∅ videoUrl = Some (Return tt, st')
    /\ statusCode (res st') = 200
    /\ setHeaders (res st') !! "set-cookie" = None
    /\ payload (res st') = Some (Piped "frames").
Proof.
  destruct (stream_success_response URL decodeURIComponent engineMessage streaming ∅ config
              (encodeURIComponent videoUrl) videoUrl None video "frames"
              (attempted initSt (proxyRequest config videoUrl false None) 1 0))
    as [st' [Hrun [Hst [_ [Hcookie Hpay]]]]]; try reflexivity.
  exists st'. repeat split; try assumption.
  apply Hcookie. vm_compute. auto 10.
Defined.

(** C3, counterexample. The upstream answers the video request with 206
    and a stream; the fetch succeeds in stream mode, and the client is
    answered with status 200. *)
Lemma stream_status_not_relayed :
  exists response st1 st',
    fetch streaming videoUrl false = Some (Return response, st1)
    /\ isApiRequest videoUrl None = false
    /\ status response = 206
    /\ proxy streaming ∅ videoUrl = Some (Return tt, st')
    /\ statusCode (res st') = 200
    /\ statusCode (res st') <> status response.
Proof.
  eexists. eexists. eexists.
  split; [reflexivity |]. split; [reflexivity |]. split; [reflexivity |].
  split; [reflexivity |]. split; [reflexivity |]. discriminate.
Qed.

(** C9 on the listing scenario. *)
Lemma json_success_response_witness :
  exists st',
    proxy flaky ∅ listingUrl = Some (Return tt, st')
    /\ statusCode (res st') = 200
    /\ payload (res st') = Some (SentJson (data listing)).
Proof.
  apply (json_success_response URL decodeURIComponent engineMessage flaky ∅ config
           (encodeURIComponent listingUrl) listingUrl None listing
           (attempted initSt (proxyRequest config listingUrl true None) 3 2));
    reflexivity.
Defined.

(** C6 on the loopback address and on a network that is down. *)
Lemma validation_and_transport_faults_witness :
  (exists st',
     proxy down ∅ loopbackUrl = Some (Return tt, st')
     /\ statusCode (res st') = 400
     /\ calls st' = [])
  /\ (exists st',
        proxy down ∅ videoUrl = Some (Return tt, st')
        /\ statusCode (res st') = 500
        /\ payload (res st') = Some (Sent (Value (JStr "请求失败: connect ECONNREFUSED")))
        /\ length (calls st') = 3%nat).
Proof.
  split.
  - destruct (proj1 (validation_and_transport_faults URL decodeURIComponent engineMessage down ∅
                       config (encodeURIComponent loopbackUrl) loopbackUrl None ltac:(vm_compute; reflexivity)) ltac:(vm_compute; reflexivity))
      as [st' [Hrun [Hst [_ Hcalls]]]].
    exists st'. auto.
  - destruct (proj2 (validation_and_transport_faults URL decodeURIComponent engineMessage down ∅
                       config (encodeURIComponent videoUrl) videoUrl None ltac:(vm_compute; reflexivity)) ltac:(vm_compute; reflexivity))
      as [e [st' [He [Hrun [Hst [Hpay Hcalls]]]]]].
    + intros k _. eexists. split; [apply scripted_nil | reflexivity].
    + exists st'. split; [exact Hrun |]. split; [exact Hst |].
      unfold attempt, down in He. rewrite scripted_nil in He. injection He as <-.
      split; [exact Hpay |]. rewrite Hcalls. reflexivity.
Defined.

(** X23 on the 404 scenario. *)
Lemma upstream_status_fault_response_witness :
  exists st',
    proxy (serving missing) ∅ listingUrl = Some (Return tt, st')
    /\ statusCode (res st') = 404
    /\ payload (res st') = Some (Sent (Value (JStr "代理请求失败"))).
Proof.
  apply (upstream_status_fault_response URL decodeURIComponent engineMessage (serving missing) ∅
           config (encodeURIComponent listingUrl) listingUrl None
           {| message := "Request failed"; response := Some missing |} missing
           (attempted initSt (proxyRequest config listingUrl true None) 3 2)).
  - reflexivity.
  - reflexivity.
  - reflexivity.
  - reflexivity.
  - discriminate.
  - intros v Hv. injection Hv as <-. discriminate.
Defined.

(** C8. An upstream that answers 404 with the JSON body [0] at every
    attempt: the fetcher surfaces the fault with that response, the
    client gets the status 404, but not the body: the body [0] is not
    empty, and the fixed failure message is sent in its place. *)
Lemma falsy_body_replaced :
  exists error r st1 st',
    fetch (serving missing) listingUrl true = Some (Throw error, st1)
    /\ response error = Some r
    /\ status r = 404
    /\ data r = Value (JNum 0)
    /\ ~ emptyBody (data r)
    /\ proxy (serving missing) ∅ listingUrl = Some (Return tt, st')
    /\ statusCode (res st') = 404
    /\ payload (res st') = Some (Sent (Value (JStr "代理请求失败")))
    /\ payload (res st') <> Some (Sent (data r)).
Proof.
  eexists. eexists. eexists. eexists.
  split; [reflexivity |]. split; [reflexivity |]. split; [reflexivity |].
  split; [reflexivity |].
  split; [intros [H | [H | H]]; discriminate H |].
  split; [reflexivity |]. split; [reflexivity |]. split; [reflexivity |]. discriminate.
Qed.

(** C7 for a search whose delegated call is answered 404: the 404 is not
    passed on. *)
Lemma aggregation_fault_envelope_witness :
  exists st',
    searchRoute engineMessage (serving missing) config API_SITES API_CONFIG bareQuery initSt
    = Some (Return tt, st')
    /\ statusCode (res st') = 500
    /\ payload (res st')
       = Some (SentJson (Value (JObject [("code", JNum 500);
                                         ("msg", JStr "API聚合失败");
                                         ("error", JStr "Request failed")]))).
Proof.
  apply (proj1 (aggregation_fault_envelope engineMessage (serving missing) config
                  API_SITES API_CONFIG bareQuery
                  ("https://json.heimuer.xyz" ++ searchPath API_CONFIG)
                  {| message := "Request failed"; response := Some missing |}));
    reflexivity.
Defined.

(** C10 for a query with no parameter at all: both routes ask their own
    proxy route for the default site's URL with an empty parameter. *)
Lemma absent_parameter_delegates_witness :
  (exists st' req,
     searchRoute engineMessage down config API_SITES API_CONFIG bareQuery initSt
     = Some (Return tt, st')
     /\ calls st' = [req]
     /\ url req
        = "http://localhost:8080/proxy/https%3A%2F%2Fjson.heimuer.xyz%2Fapi.php%2Fprovide%2Fvod%2F%3Fac%3Dvideolist%26wd%3D")
  /\ (exists st' req,
        detailRoute engineMessage down config API_SITES API_CONFIG bareQuery initSt
        = Some (Return tt, st')
        /\ calls st' = [req]
        /\ url req
           = "http://localhost:8080/proxy/https%3A%2F%2Fjson.heimuer.xyz%2Fapi.php%2Fprovide%2Fvod%2F%3Fac%3Dvideolist%26ids%3D").
Proof.
  pose proof (absent_parameter_delegates engineMessage down config API_SITES API_CONFIG
                bareQuery "https://json.heimuer.xyz" eq_refl) as [Hs Hd].
  split.
  - destruct (Hs eq_refl) as [_ [st' [req [Hrun [Hcalls [Hurl _]]]]]].
    exists st', req. split; [exact Hrun |]. split; [exact Hcalls |].
    rewrite Hurl. reflexivity.
  - destruct (Hd eq_refl) as [_ [st' [req [Hrun [Hcalls [Hurl _]]]]]].
    exists st', req. split; [exact Hrun |]. split; [exact Hcalls |].
    rewrite Hurl. reflexivity.
Defined.

(** C4. On [/api/detail?id=1%26ac%3Dlist] the composed URL ends with the id
    as it came, [1&ac=list], and not with its URL-encoded form
    [1%26ac%3Dlist]; the search route, on the same text as keyword, does
    append the encoded form. *)
Theorem detail_id_not_encoded :
  specBase API_SITES injectingQuery = Some "https://json.heimuer.xyz"
  /\ detailApiUrl API_SITES API_CONFIG injectingQuery
     = Some ("https://json.heimuer.xyz" ++ detailPath API_CONFIG ++ "1&ac=list")
  /\ detailApiUrl API_SITES API_CONFIG injectingQuery
     <> Some ("https://json.heimuer.xyz" ++ detailPath API_CONFIG
              ++ encodeURIComponent "1&ac=list")
  /\ searchApiUrl API_SITES API_CONFIG injectingQuery
     = Some ("https://json.heimuer.xyz" ++ searchPath API_CONFIG
             ++ encodeURIComponent "1&ac=list").
Proof.
  split; [reflexivity |]. split; [reflexivity |].
  split; [| reflexivity].
  vm_compute. discriminate.
Qed.

(** * The further properties on the concrete platform *)

(** X1 with [maxRetries = 2] on the network that answers at the third
    attempt. *)
Lemma makeRequest_budget_witness :
  exists o st' n,
    fetch flaky listingUrl true = Some (o, st')
    /\ calls st' = repeat (proxyRequest config listingUrl true None) (S n)
    /\ (n <= 2)%nat.
Proof.
  destruct (makeRequest_budget flaky config (proxyRequest config listingUrl true None) initSt
              eq_refl) as [o [st' [n [Hrun [Hcalls [_ [Hle _]]]]]]].
  exists o, st', n. split; [exact Hrun |]. split; [exact Hcalls | exact Hle].
Defined.

(** X2 on the network that is down. *)
Lemma makeRequest_last_attempt_witness :
  exists o st' n,
    fetch down listingUrl true = Some (o, st')
    /\ length (calls st') = S n.
Proof.
  destruct (makeRequest_last_attempt down config (proxyRequest config listingUrl true None)
              initSt eq_refl) as [o [st' [n [Hrun [Hlen _]]]]].
  exists o, st', n. split; [exact Hrun | exact Hlen].
Defined.

(** X5 on the network that is down: its errors carry no response. *)
Lemma proxy_always_responds_witness :
  exists st',
    proxy down ∅ videoUrl = Some (Return tt, st')
    /\ is_Some (payload (res st')).
Proof.
  apply (proxy_always_responds URL decodeURIComponent engineMessage down ∅ config).
  intros n req error r v Hn Hr. unfold down in Hn. rewrite scripted_nil in Hn.
  injection Hn as <-. discriminate Hr.
Defined.

(** X7 on the 404 scenario. *)
Lemma fault_forwards_no_headers_witness :
  exists o st',
    proxy (serving missing) ∅ listingUrl = Some (o, st')
    /\ setHeaders (res st') = ∅.
Proof.
  apply (fault_forwards_no_headers URL decodeURIComponent engineMessage (serving missing) ∅
           config (encodeURIComponent listingUrl) listingUrl None
           {| message := "Request failed"; response := Some missing |}
           (attempted initSt (proxyRequest config listingUrl true None) 3 2));
    reflexivity.
Defined.

(** X8 on a parameter with a broken escape. *)
Lemma malformed_escape_is_500_witness :
  exists st',
    proxyRoute URL decodeURIComponent engineMessage down ∅ config "%zz" None initSt
    = Some (Return tt, st')
    /\ statusCode (res st') = 500
    /\ payload (res st') = Some (Sent (Value (JStr "请求失败: URI malformed")))
    /\ calls st' = [].
Proof.
  apply (malformed_escape_is_500 URL decodeURIComponent engineMessage down ∅ config "%zz" None).
  reflexivity.
Defined.

(** X10 on a keyword that tries to add a parameter. *)
Lemma encodeURIComponent_escapes_witness :
  occurs "&" (encodeURIComponent "1&ac=list") = false.
Proof.
  apply (proj1 (encodeURIComponent_escapes "1&ac=list" "&")); [reflexivity | discriminate].
Defined.

(** X11 on a numeric id. *)
Lemma detail_plain_id_encoded_witness :
  detailApiUrl API_SITES API_CONFIG
    {| wd := None; id := Some "12345"; source := None; customApi := None |}
  = Some ("https://json.heimuer.xyz" ++ detailPath API_CONFIG ++ encodeURIComponent "12345").
Proof.
  rewrite (detail_plain_id_encoded API_SITES API_CONFIG
             {| wd := None; id := Some "12345"; source := None; customApi := None |} eq_refl).
  reflexivity.
Defined.

(** X13 on a registry without any site. *)
Lemma unresolved_base_envelope_witness :
  exists st',
    searchRoute engineMessage down config noSites API_CONFIG bareQuery initSt
    = Some (Return tt, st')
    /\ statusCode (res st') = 500
    /\ calls st' = [].
Proof.
  destruct (unresolved_base_envelope engineMessage down config noSites API_CONFIG bareQuery)
    as [[st' [Hrun [Hst [_ Hcalls]]]] _].
  - reflexivity.
  - intros name Hname. discriminate Hname.
  - reflexivity.
  - exists st'. auto.
Defined.

(** X24 on [/api/search?wd=test&source=constructor]. *)
Lemma inherited_source_undefined_base_witness :
  searchApiUrl API_SITES API_CONFIG constructorQuery
  = Some "undefined/api.php/provide/vod/?ac=videolist&wd=test".
Proof.
  destruct (inherited_source_undefined_base API_SITES API_CONFIG constructorQuery "constructor")
    as [_ [Hsearch _]].
  - reflexivity.
  - reflexivity.
  - simpl. auto.
  - reflexivity.
  - rewrite Hsearch. reflexivity.
Defined.

(** X6 on the video scenario under the default filter list. *)
Lemma proxy_never_forwards_filtered_witness :
  exists o st',
    proxy streaming ∅ videoUrl = Some (o, st')
    /\ forall name value, setHeaders (res st') !! name = Some value -> ~ inFilterList ∅ name.
Proof.
  apply (proxy_never_forwards_filtered URL decodeURIComponent engineMessage streaming ∅ config).
  - intros f Hin. vm_compute in Hin.
    destruct Hin as [<- | [<- | [<- | [<- | [<- | []]]]]]; reflexivity.
  - intros n req r Hnet name value Hlook.
    assert (Hr : r = video).
    { unfold streaming, scripted in Hnet.
      destruct n as [| n]; [| destruct n; discriminate Hnet].
      injection Hnet as <-. reflexivity. }
    subst r. unfold video in Hlook. simpl in Hlook.
    apply lookup_insert_Some in Hlook. destruct Hlook as [[<- _] | [_ Hlook]]; [reflexivity |].
    apply lookup_singleton_Some in Hlook. destruct Hlook as [<- _]. reflexivity.
Defined.

(** X15 with [BLOCKED_IP_PREFIXES=10.,] on a public URL. *)
Lemma trailing_comma_blocks_all_witness :
  isValidUrl URL ∅ videoUrl = true
  /\ isValidUrl URL trailingCommaEnv videoUrl = false.
Proof.
  split; [vm_compute; reflexivity |].
  apply (trailing_comma_blocks_all URL trailingCommaEnv "10." videoUrl).
  vm_compute. reflexivity.
Defined.

(** X17 on [/proxy/http:/example.com/a]. *)
Lemma collapsed_slash_repaired_witness :
  proxyRewrite "/http:/example.com/a" = "/" ++ encodeURIComponent "http://example.com/a".
Proof.
  apply (collapsed_slash_repaired "http:" "e" "xample.com/a"); [auto | discriminate].
Defined.

(** X20 on the index page. *)
Lemma page_served_verbatim_witness :
  exists st',
    pageRoute readFileSync sha256Hex "" "" "/" initSt = Some (Return tt, st')
    /\ statusCode (res st') = 200.
Proof.
  destruct (page_served_verbatim readFileSync sha256Hex "" "" "/" _ eq_refl eq_refl eq_refl)
    as [st' [Hrun [Hst _]]].
  exists st'. auto.
Defined.

(** X21 on the player page, whose file is missing. *)
Lemma page_read_failure_witness :
  exists st',
    pageRoute readFileSync sha256Hex "secret" "" "/player.html" initSt = Some (Return tt, st')
    /\ statusCode (res st') = 500
    /\ payload (res st') = Some (Sent (Value (JStr "读取静态页面失败"))).
Proof.
  apply (proj1 (page_read_failure readFileSync sha256Hex "secret" "" "/player.html"
                  {| message := "ENOENT: no such file or directory"; response := None |})).
  reflexivity.
Defined.

(** X22 on the index page, which has the placeholder twice. *)
Lemma password_digest_inserted_witness :
  exists st',
    pageRoute readFileSync sha256Hex "secret" "" "/" initSt = Some (Return tt, st')
    /\ payload (res st')
       = Some (Sent (Value (JStr
           "<script>window.__ENV__={P:'736563726574',A:'{{ADMINPASSWORD}}'}</script>{{PASSWORD}}"))).
Proof.
  destruct (password_digest_inserted readFileSync sha256Hex "secret" "" "/"
              "<script>window.__ENV__={P:'"
              "',A:'{{ADMINPASSWORD}}'}</script>{{PASSWORD}}")
    as [st' [Hrun [_ Hpay]]]; try reflexivity.
  - discriminate.
  - exists st'. split; [exact Hrun | exact Hpay].
Defined.
